(** * Movie search backend: query routing, record mapping and match filter

    A shallow embedding of [app/clients/movie_client.py],
    [app/utils/utils_movies_client.py] and [app/main.py].

    - Upstream HTTP services (TMDB, OMDB) are an oracle from requests to
      replies; every request that is issued is appended to a log.
    - The Redis client is a finite map from keys to entries with an optional
      expiry instant, read at the current instant of the world.
    - Coroutines are computations in a state-and-exception monad over the
      world; [asyncio.gather] over a list runs its tasks in list order.
    - JSON objects are records holding the keys the code reads; a key that is
      absent and a key that holds [null] are both [None].
    - Python strings are byte strings holding UTF-8 text, so that the ordinal
      comparison of code points is the lexicographic comparison of bytes.
    - The code tests its optional fields by truth value: a text field counts
      as set, given or present when it holds a non-empty text, and as empty
      when it is [None] or ['']; an optional integer is falsy when it is
      [None] or [0]. *)

From Stdlib Require Import ZArith Decimal DecimalString DecimalZ Lia.
From Stdlib Require Import Ascii.
From Stdlib Require String.
From Stdlib Require Import Sorted Permutation.
From stdpp Require Import base option list gmap strings.

Local Open Scope Z_scope.

(** ** Python built-ins used by the code *)

Module Py.

(** [bool(s)] for a string. *)
Definition nonempty (s : string) : bool :=
  match s with
  | EmptyString => false
  | String _ _ => true
  end.

(** [bool(x)] for an optional string: [None] and [''] are falsy. *)
Definition truthy (o : option string) : bool :=
  match o with
  | Some s => nonempty s
  | None => false
  end.

(** [bool(x)] for an optional integer: [None] and [0] are falsy. *)
Definition truthy_int (o : option Z) : bool :=
  match o with
  | Some z => negb (z =? 0)
  | None => false
  end.

(** [a or b] where [a] is an optional string. *)
Definition or_else (a b : option string) : option string :=
  if truthy a then a else b.

(** [str(n)] for an integer. *)
Definition str (z : Z) : string :=
  NilZero.string_of_int (Z.to_int z).

(** [str(x)] where [x] is an integer or [None]. *)
Definition str_opt (o : option Z) : string :=
  match o with
  | Some z => str z
  | None => "None"
  end.

(** ASCII white space, as removed by [int] around its argument. *)
Definition is_space (c : Ascii.ascii) : bool :=
  let n := Ascii.N_of_ascii c in
  ((9 <=? n) && (n <=? 13) || (28 <=? n) && (n <=? 32))%N.

Fixpoint lstrip (s : string) : string :=
  match s with
  | EmptyString => EmptyString
  | String c r => if is_space c then lstrip r else s
  end.

Fixpoint rstrip (s : string) : string :=
  match s with
  | EmptyString => EmptyString
  | String c r =>
      match rstrip r with
      | EmptyString => if is_space c then EmptyString else String c EmptyString
      | r' => String c r'
      end
  end.

Definition strip (s : string) : string := rstrip (lstrip s).

(** Removes the underscores of an integer literal; they are accepted one at a
    time and between two digits only. *)
Fixpoint drop_us (after_digit : bool) (s : string) : option string :=
  match s with
  | EmptyString => if after_digit then Some EmptyString else None
  | String c r =>
      if Ascii.eqb c "_"%char
      then (if after_digit then drop_us false r else None)
      else option_map (String c) (drop_us true r)
  end.

Definition int_digits (body : string) : option Z :=
  match drop_us false body with
  | Some ds =>
      match NilEmpty.uint_of_string ds with
      | Some d => Some (Z.of_uint d)
      | None => None
      end
  | None => None
  end.

(** [int(s)] on ASCII text: [None] stands for [ValueError]. *)
Definition int (s : string) : option Z :=
  match strip s with
  | EmptyString => None
  | String c r =>
      if Ascii.eqb c "-"%char then option_map Z.opp (int_digits r)
      else if Ascii.eqb c "+"%char then int_digits r
      else int_digits (String c r)
  end.

(** [all(p(c) for c in s)]. *)
Fixpoint all_chars (p : Ascii.ascii -> bool) (s : string) : bool :=
  match s with
  | EmptyString => true
  | String c r => p c && all_chars p r
  end.

(** The ASCII decimal digits. *)
Definition is_digit (c : Ascii.ascii) : bool :=
  let n := Ascii.N_of_ascii c in ((48 <=? n) && (n <=? 57))%N.

(** [s.split('-')[0]]. *)
Fixpoint split_head (s : string) : string :=
  match s with
  | EmptyString => EmptyString
  | String c r => if Ascii.eqb c "-"%char then EmptyString else String c (split_head r)
  end.

(** [str.lower] restricted to ASCII letters. *)
Definition lower_char (c : Ascii.ascii) : Ascii.ascii :=
  let n := Ascii.N_of_ascii c in
  if ((65 <=? n) && (n <=? 90))%N then Ascii.ascii_of_N (n + 32) else c.

Fixpoint ascii_lower (s : string) : string :=
  match s with
  | EmptyString => EmptyString
  | String c r => String (lower_char c) (ascii_lower r)
  end.

(** [needle in hay] for strings. *)
Fixpoint contains (needle hay : string) : bool :=
  String.prefix needle hay ||
  match hay with
  | EmptyString => false
  | String _ r => contains needle r
  end.

(** The declarative reading of [needle in hay]: an occurrence of [a] in [b]. *)
Definition substring_of (a b : string) : Prop :=
  exists pre suf, b = pre +:+ a +:+ suf.

(** [any(p(x) for x in l)]. *)
Definition any {A} (p : A -> bool) (l : list A) : bool := existsb p l.

(** A dictionary keeps its keys in insertion order; storing under a key that
    is present replaces the value in place. *)
Fixpoint dict_set {K V} `{EqDecision K} (k : K) (v : V) (d : list (K * V))
  : list (K * V) :=
  match d with
  | [] => [(k, v)]
  | (k', v') :: r =>
      if decide (k' = k) then (k, v) :: r else (k', v') :: dict_set k v r
  end.

(** [{k: v for k, v in pairs}]. *)
Definition dict_of_pairs {K V} `{EqDecision K} (pairs : list (K * V))
  : list (K * V) :=
  fold_left (fun d kv => dict_set (fst kv) (snd kv) d) pairs [].

(** [d.get(k)]. *)
Fixpoint dict_get {K V} `{EqDecision K} (k : K) (d : list (K * V)) : option V :=
  match d with
  | [] => None
  | (k', v) :: r => if decide (k' = k) then Some v else dict_get k r
  end.

(** [l.sort(key=...)] on string keys: the sort is stable, and strings are
    ordered by code point. *)
Fixpoint insert_by {A} (key : A -> string) (x : A) (l : list A) : list A :=
  match l with
  | [] => [x]
  | y :: r =>
      if String.leb (key x) (key y) then x :: y :: r
      else y :: insert_by key x r
  end.

(** The order of the sort: ascending keys. *)
Definition key_le {A} (key : A -> string) (a b : A) : Prop :=
  String.leb (key a) (key b) = true.

Definition sort_by {A} (key : A -> string) (l : list A) : list A :=
  foldr (insert_by key) [] l.

End Py.

(** ** Data model ([app/schemas/movies_schemas.py]) *)

(** [Literal['movie', 'series']]. *)
Inductive MediaType := Movie | Series.

(** [Literal['TMDB', 'Merged']]. *)
Inductive Source := TMDB | Merged.

(** The TMDB path segment: ['movie'] or ['tv']. *)
Inductive Endpoint := EpMovie | EpTv.

#[global] Instance MediaType_eq_dec : EqDecision MediaType.
Proof. solve_decision. Defined.
#[global] Instance Source_eq_dec : EqDecision Source.
Proof. solve_decision. Defined.
#[global] Instance Endpoint_eq_dec : EqDecision Endpoint.
Proof. solve_decision. Defined.

Record MovieSearchParams := {
  p_title : option string;
  p_actors : option string;
  p_type : option MediaType;
  p_genre : option string
}.

Record MovieResponse := {
  m_id : string;
  m_title : string;
  m_year : option Z;
  m_type : MediaType;
  m_genres : list string;
  m_actors : list string;
  m_director : option string;
  m_runtime : option string;
  m_plot : option string;
  m_poster_url : option string;
  m_ratings : list (string * string);
  m_source : Source
}.

(** A JSON object of a TMDB list: a catalog item, a person or a cast entry. *)
Record RawItem := {
  i_id : option Z;
  i_title : option string;
  i_name : option string;
  i_release_date : option string;
  i_first_air_date : option string;
  i_genre_ids : list Z;
  i_poster_path : option string
}.

(** The JSON object of a reply. The list-valued keys are read with
    [.get(key, [])], so an absent list is the empty list. [b_genres] holds the
    pairs [(g['id'], g['name'])] and [b_Ratings] the pairs
    [(r['Source'], r['Value'])]. *)
Record Body := {
  b_results : list RawItem;
  b_genres : list (Z * string);
  b_cast : list RawItem;
  b_imdb_id : option string;
  b_Response : option string;
  b_Title : option string;
  b_Year : option string;
  b_Director : option string;
  b_Runtime : option string;
  b_Plot : option string;
  b_Poster : option string;
  b_Ratings : list (string * string)
}.

(** ** Upstream services, cache and world *)

Inductive Request :=
  | GenreList (ep : Endpoint)
  | Search (ep : Endpoint) (query : option string)
  | SearchPerson (query : string)
  | Discover (ep : Endpoint) (with_genres with_cast : option string)
  | TvCredits (person_id : option Z)
  | Popular (ep : Endpoint)
  | Credits (ep : Endpoint) (tmdb_id : option Z)
  | Detail (ep : Endpoint) (tmdb_id : option Z)
  | Omdb (imdb_id : string).

(** [NetErr]: [client.get] raised (time-out, connection failure).
    [Resp st None]: a reply whose body is not a JSON object. *)
Inductive Reply :=
  | NetErr
  | Resp (status : Z) (body : option Body).

Definition Upstream := Request -> Reply.

(** The exceptions of a request. [ShapeError] stands for the [AttributeError]
    or [TypeError] that follows when a cached document does not have the
    shape its reader expects; the model raises it at the read. *)
Inductive Exn :=
  | RequestError
  | HTTPStatusError (status : Z)
  | JSONDecodeError
  | ValueError
  | ValidationError
  | ShapeError.

Inductive Result (A : Type) :=
  | Ok (a : A)
  | Raise (e : Exn).
Arguments Ok {A} a.
Arguments Raise {A} e.

(** The document behind a cached JSON text: [json.dumps] writes the integer
    keys of a dictionary as strings. *)
Inductive CacheDoc :=
  | DGenres (members : list (string * string))
  | DItems (items : list RawItem).

Record CacheEntry := {
  ce_value : CacheDoc;
  ce_expires : option Z
}.

Record World := {
  cache : gmap string CacheEntry;
  now : Z;
  log : list Request
}.

Definition CACHE_TTL_POPULAR : Z := 600.

(** ** Coroutines *)

Definition M (A : Type) : Type := World -> Result A * World.

Definition ret {A} (a : A) : M A := fun w => (Ok a, w).

Definition raise {A} (e : Exn) : M A := fun w => (Raise e, w).

Definition bind {A B} (m : M A) (k : A -> M B) : M B :=
  fun w =>
    match m w with
    | (Ok a, w') => k a w'
    | (Raise e, w') => (Raise e, w')
    end.

Declare Scope coro_scope.
Delimit Scope coro_scope with coro.
Notation "x <- m ;; k" := (bind m (fun x => k))
  (at level 100, m at next level, right associativity) : coro_scope.
Notation "m ;; k" := (bind m (fun _ => k))
  (at level 100, right associativity) : coro_scope.
Local Open Scope coro_scope.

(** [await asyncio.gather] over the coroutines [f(x) for x in l]. *)
Fixpoint gather {A B} (f : A -> M B) (l : list A) : M (list B) :=
  match l with
  | [] => ret []
  | x :: r => y <- f x ;; ys <- gather f r ;; ret (y :: ys)
  end.

(** [await _redis.get(key)]: an entry is visible until its expiry instant. *)
Definition alive (t : Z) (e : CacheEntry) : bool :=
  match ce_expires e with
  | Some d => t <? d
  | None => true
  end.

Definition redis_get (key : string) : M (option CacheDoc) :=
  fun w =>
    (Ok (match cache w !! key with
         | Some e => if alive (now w) e then Some (ce_value e) else None
         | None => None
         end), w).

(** [await _redis.set(key, value, ex=ttl)]. *)
Definition redis_set (key : string) (doc : CacheDoc) (ex : option Z) : M unit :=
  fun w =>
    (Ok tt,
     {| cache := <[key := {| ce_value := doc;
                             ce_expires := (fun d => now w + d) <$> ex |}]> (cache w);
        now := now w;
        log := log w |}).

(** [resp.raise_for_status()]: only a 2xx status passes. *)
Definition is_success (status : Z) : bool := (200 <=? status) && (status <=? 299).

Definition raise_for_status (resp : Z * option Body) : M unit :=
  if is_success (fst resp) then ret tt else raise (HTTPStatusError (fst resp)).

(** [resp.json()]. *)
Definition json (resp : Z * option Body) : M Body :=
  match snd resp with
  | Some b => ret b
  | None => raise JSONDecodeError
  end.

Definition ep_str (ep : Endpoint) : string :=
  match ep with
  | EpMovie => "movie"
  | EpTv => "tv"
  end.

Definition endpoint_of (is_series : bool) : Endpoint :=
  if is_series then EpTv else EpMovie.

(** ** The program *)

Section Program.

(** The replies of TMDB and OMDB during one request. *)
Variable up : Upstream.

(** *** [app/utils/utils_movies_client.py] *)

(** [str.lower]; its Unicode tables are not needed by any result below. *)
Variable lower : string -> string.

(** [await client.get(url, params=...)]. *)
Definition client_get (r : Request) : M (Z * option Body) :=
  fun w =>
    let w' := {| cache := cache w; now := now w; log := log w ++ [r] |} in
    match up r with
    | NetErr => (Raise RequestError, w')
    | Resp status body => (Ok (status, body), w')
    end.

(** The members of a cached taxonomy, read back with [int(k)] on each key. *)
Fixpoint int_keys (members : list (string * string)) : option (list (Z * string)) :=
  match members with
  | [] => Some []
  | (k, v) :: r =>
      match Py.int k with
      | Some i => option_map (cons (i, v)) (int_keys r)
      | None => None
      end
  end.

(** [json.dumps(mapping)] for a taxonomy. *)
Definition dump_genres (mapping : list (Z * string)) : CacheDoc :=
  DGenres (map (fun kv => (Py.str (fst kv), snd kv)) mapping).

Definition fetch_genres (is_series : bool) : M (list (Z * string)) :=
  let endpoint := endpoint_of is_series in
  let key := "genres:" +:+ ep_str endpoint in
  cached <- redis_get key ;;
  match cached with
  | Some (DGenres members) =>
      match int_keys members with
      | Some pairs => ret (Py.dict_of_pairs pairs)
      | None => raise ValueError
      end
  | Some (DItems _) => raise ShapeError
  | None =>
      resp <- client_get (GenreList endpoint) ;;
      raise_for_status resp ;;
      body <- json resp ;;
      let mapping := Py.dict_of_pairs (b_genres body) in
      redis_set key (dump_genres mapping) None ;;
      ret mapping
  end.

(** The cache key of the taxonomy of a media type. *)
Definition genres_key (is_series : bool) : string :=
  "genres:" +:+ ep_str (endpoint_of is_series).

Definition get_search_results (title : option string) (is_series : bool)
  : M (list RawItem * Endpoint) :=
  let endpoint := endpoint_of is_series in
  resp <- client_get (Search endpoint title) ;;
  raise_for_status resp ;;
  body <- json resp ;;
  ret (b_results body, endpoint).

(** [next((i for i, n in genres.items() if n.lower() == genre.lower()), None)]. *)
Definition genre_id_of (genres : list (Z * string)) (genre : string) : option Z :=
  fst <$> List.find (fun kv => String.eqb (lower (snd kv)) (lower genre)) genres.

(** The text of a query field that is truthy. *)
Definition given (o : option string) : option string :=
  if Py.truthy o then o else None.

(** The first person found for a name: [people[0].get('id')] when the person
    search has results. *)
Definition search_person (name : string) : M (option (option Z)) :=
  p <- client_get (SearchPerson name) ;;
  raise_for_status p ;;
  body <- json p ;;
  ret (i_id <$> head (b_results body)).

(** The [with_genres] parameter resolved for a genre name. *)
Definition with_genres_of (is_series : bool) (genre : option string)
  : M (option string) :=
  match given genre with
  | Some g =>
      genres <- fetch_genres is_series ;;
      ret (given (Py.str <$> genre_id_of genres g))
  | None => ret None
  end.

(** [genre_id in show.get('genre_ids', [])]. *)
Definition has_genre (genre_id : option Z) (show : RawItem) : bool :=
  match genre_id with
  | Some i => bool_decide (i ∈ i_genre_ids show)
  | None => false
  end.

Definition _discover_movie_by_filters (genre actors : option string)
  : M (list RawItem * Endpoint) :=
  let endpoint := EpMovie in
  with_genres <- with_genres_of false genre ;;
  with_cast <-
    match given actors with
    | Some a =>
        people <- search_person a ;;
        ret (Py.str_opt <$> people)
    | None => ret None
    end ;;
  resp <- client_get (Discover endpoint with_genres with_cast) ;;
  raise_for_status resp ;;
  body <- json resp ;;
  ret (b_results body, endpoint).

Definition _discover_tv_by_filters (genre actors : option string)
  : M (list RawItem * Endpoint) :=
  let endpoint := EpTv in
  match given actors with
  | Some a =>
      people <- search_person a ;;
      match people with
      | None => ret ([], endpoint)
      | Some person_id =>
          credits_resp <- client_get (TvCredits person_id) ;;
          raise_for_status credits_resp ;;
          body <- json credits_resp ;;
          let credits := b_cast body in
          match given genre with
          | Some g =>
              genres <- fetch_genres true ;;
              let genre_id := genre_id_of genres g in
              if Py.truthy_int genre_id
              then ret (List.filter (has_genre genre_id) credits, endpoint)
              else ret (credits, endpoint)
          | None => ret (credits, endpoint)
          end
      end
  | None =>
      with_genres <- with_genres_of true genre ;;
      resp <- client_get (Discover endpoint with_genres None) ;;
      raise_for_status resp ;;
      body <- json resp ;;
      ret (b_results body, endpoint)
  end.

Definition discover_by_filters (genre actors : option string) (is_series : bool)
  : M (list RawItem * Endpoint) :=
  if is_series
  then _discover_tv_by_filters genre actors
  else _discover_movie_by_filters genre actors.

Definition get_popular (is_series : bool) : M (list RawItem) :=
  let endpoint := endpoint_of is_series in
  let key := "popular:" +:+ ep_str endpoint in
  cached <- redis_get key ;;
  match cached with
  | Some (DItems items) => ret items
  | Some (DGenres _) => raise ShapeError
  | None =>
      resp <- client_get (Popular endpoint) ;;
      raise_for_status resp ;;
      body <- json resp ;;
      let items := b_results body in
      redis_set key (DItems items) (Some CACHE_TTL_POPULAR) ;;
      ret items
  end.

Definition _fetch_credits (media_type : Endpoint) (tmdb_id : option Z)
  : M (list string) :=
  resp <- client_get (Credits media_type tmdb_id) ;;
  raise_for_status resp ;;
  body <- json resp ;;
  ret (omap (fun c => given (i_name c)) (b_cast body)).

Definition _get_imdb_id (media_type : Endpoint) (tmdb_id : option Z)
  : M (option string) :=
  resp <- client_get (Detail media_type tmdb_id) ;;
  if fst resp =? 200
  then body <- json resp ;; ret (b_imdb_id body)
  else ret None.

Definition _fetch_omdb_data (imdb_id : string) : M (option Body) :=
  resp <- client_get (Omdb imdb_id) ;;
  data <- json resp ;;
  if (fst resp =? 200) && bool_decide (b_Response data = Some "True")
  then ret (Some data)
  else ret None.

(** [int(s)] inside a coroutine. *)
Definition int_or_raise (s : string) : M Z :=
  match Py.int s with
  | Some z => ret z
  | None => raise ValueError
  end.

Definition poster_base : string := "https://image.tmdb.org/t/p/w500".

Definition tmdb_poster (item : RawItem) : option string :=
  (fun path => poster_base +:+ path) <$> given (i_poster_path item).

(** [item.get('title') or item.get('name') or '']. *)
Definition catalog_title (item : RawItem) : option string :=
  Py.or_else (Py.or_else (i_title item) (i_name item)) (Some "").

(** [item.get('release_date') or item.get('first_air_date') or '']. *)
Definition catalog_date (item : RawItem) : option string :=
  Py.or_else (Py.or_else (i_release_date item) (i_first_air_date item)) (Some "").

(** [int(date.split('-')[0]) if date else None]. *)
Definition catalog_year (item : RawItem) : M (option Z) :=
  match given (catalog_date item) with
  | Some d => y <- int_or_raise (Py.split_head d) ;; ret (Some y)
  | None => ret None
  end.

(** [await _fetch_omdb_data(client, imdb_id) if imdb_id else None]. *)
Definition enrichment (imdb_id : option string) : M (option Body) :=
  match given imdb_id with
  | Some i => _fetch_omdb_data i
  | None => ret None
  end.

(** [year or (int(omdb.get('Year')) if omdb.get('Year') else None)]. *)
Definition merged_year (year : option Z) (omdb : Body) : M (option Z) :=
  if Py.truthy_int year then ret year
  else match given (b_Year omdb) with
       | Some y => z <- int_or_raise y ;; ret (Some z)
       | None => ret None
       end.

Definition map_to_movie (item : RawItem) (media_type : Endpoint)
    (genres : list (Z * string)) (params : MovieSearchParams)
  : M MovieResponse :=
  let tmdb_id := i_id item in
  let title := catalog_title item in
  year <- catalog_year item ;;
  let genre_list :=
    omap (fun g => given (Py.dict_get g genres)) (i_genre_ids item) in
  actors <- _fetch_credits media_type tmdb_id ;;
  imdb_id <- _get_imdb_id media_type tmdb_id ;;
  omdb <- enrichment imdb_id ;;
  fields <-
    match omdb with
    | Some o =>
        let poster :=
          if Py.truthy (i_poster_path item) then tmdb_poster item else b_Poster o in
        let ratings := Py.dict_of_pairs (b_Ratings o) in
        let title' := Py.or_else title (b_Title o) in
        year' <- merged_year year o ;;
        ret (b_Director o, b_Runtime o, b_Plot o, poster, ratings, Merged,
             title', year')
    | None =>
        ret (None, None, None, tmdb_poster item, [], TMDB, title, year)
    end ;;
  let '(director, runtime, plot, poster, ratings, source, title, year) := fields in
  match title with
  | None => raise ValidationError
  | Some title =>
      ret {| m_id := default (Py.str_opt tmdb_id) (given imdb_id);
             m_title := title;
             m_year := year;
             m_type := default (match media_type with
                                | EpTv => Series
                                | EpMovie => Movie
                                end) (p_type params);
             m_genres := genre_list;
             m_actors := actors;
             m_director := director;
             m_runtime := runtime;
             m_plot := plot;
             m_poster_url := poster;
             m_ratings := ratings;
             m_source := source |}
  end.

(** A record and an item it can be mapped from. *)
Definition mapped_from (params : MovieSearchParams) (item : RawItem)
    (r : MovieResponse) : Prop :=
  exists ep genres w1 w2, map_to_movie item ep genres params w1 = (Ok r, w2).

Definition matches (movie : MovieResponse) (params : MovieSearchParams) : bool :=
  if match p_type params with
     | Some t => negb (bool_decide (m_type movie = t))
     | None => false
     end
  then false
  else if match given (p_genre params) with
          | Some g =>
              negb (Py.any (fun x => String.eqb (lower x) (lower g))
                           (m_genres movie))
          | None => false
          end
  then false
  else if match given (p_actors params) with
          | Some a =>
              negb (Py.any (fun x => Py.contains (lower a) (lower x))
                           (m_actors movie))
          | None => false
          end
  then false
  else true.

(** *** [app/clients/movie_client.py] *)

(** The loop [for ep in endpoints] of [_search_by_title_only]. *)
Fixpoint title_only_loop (params : MovieSearchParams) (endpoints : list Endpoint)
    (movies : list MovieResponse) : M (list MovieResponse) :=
  match endpoints with
  | [] => ret movies
  | ep :: rest =>
      found <- get_search_results (p_title params) (bool_decide (ep = EpTv)) ;;
      genres <- fetch_genres (bool_decide (ep = EpTv)) ;;
      mapped <- gather (fun item => map_to_movie item (snd found) genres params)
                       (fst found) ;;
      title_only_loop params rest (movies ++ mapped)
  end.

Definition _search_by_title_only (params : MovieSearchParams) (is_series : bool)
  : M (list MovieResponse) :=
  let endpoints :=
    match p_type params with
    | None => [EpTv; EpMovie]
    | Some _ => if is_series then [EpTv] else [EpMovie]
    end in
  title_only_loop params endpoints [].

Definition _search_by_title_with_filters (params : MovieSearchParams)
    (is_series : bool) : M (list MovieResponse) :=
  found <- (if Py.truthy (p_actors params) && is_series
            then discover_by_filters (p_genre params) (p_actors params) is_series
            else get_search_results (p_title params) is_series) ;;
  genres <- fetch_genres is_series ;;
  mapped <- gather (fun item => map_to_movie item (snd found) genres params)
                   (fst found) ;;
  ret (List.filter (fun m => matches m params) mapped).

Definition _search_by_filters_only (params : MovieSearchParams)
    (is_series : bool) : M (list MovieResponse) :=
  found <- discover_by_filters (p_genre params) (p_actors params) is_series ;;
  genres <- fetch_genres is_series ;;
  mapped <- gather (fun item => map_to_movie item (snd found) genres params)
                   (fst found) ;;
  ret (List.filter (fun m => matches m params) mapped).

Definition _get_popular_fallback (params : MovieSearchParams)
  : M (list MovieResponse) :=
  movie_pop <- get_popular false ;;
  tv_pop <- get_popular true ;;
  let raw := map (fun i => (i, EpMovie)) movie_pop
             ++ map (fun i => (i, EpTv)) tv_pop in
  genres_movie <- fetch_genres false ;;
  genres_tv <- fetch_genres true ;;
  let genres_map t :=
    match t with
    | EpMovie => genres_movie
    | EpTv => genres_tv
    end in
  results <- gather (fun it => map_to_movie (fst it) (snd it)
                                 (genres_map (snd it)) params) raw ;;
  let results :=
    if negb (Py.truthy (p_title params))
    then Py.sort_by m_title results
    else results in
  ret (take 20 results).

(** The branch that [search_tmdb] takes. *)
Inductive Strategy :=
  | TitleOnly
  | TitleWithFilters
  | FiltersOnly
  | PopularFallback.

Definition strategy (params : MovieSearchParams) : Strategy :=
  let has_title := Py.truthy (p_title params) in
  let has_filters :=
    Py.truthy (p_genre params) || Py.truthy (p_actors params)
    || bool_decide (is_Some (p_type params)) in
  if has_title && negb has_filters then TitleOnly
  else if has_title && has_filters then TitleWithFilters
  else if has_filters then FiltersOnly
  else PopularFallback.

Definition search_tmdb (params : MovieSearchParams) : M (list MovieResponse) :=
  let is_series := bool_decide (p_type params = Some Series) in
  match strategy params with
  | TitleOnly => _search_by_title_only params is_series
  | TitleWithFilters => _search_by_title_with_filters params is_series
  | FiltersOnly => _search_by_filters_only params is_series
  | PopularFallback => _get_popular_fallback params
  end.

(** The result list of the reply of upstream to a title search on one
    endpoint, as [get_search_results] reads it. *)
Definition search_hits (title : option string) (ep : Endpoint) : list RawItem :=
  match up (Search ep title) with
  | Resp _ (Some body) => b_results body
  | _ => []
  end.

(** *** [app/main.py] *)

(** The reply of the route [/movies/search]: the list of records, or status
    502 whose detail is built from the exception. *)
Inductive HttpReply :=
  | Http200 (movies : list MovieResponse)
  | Http502 (cause : Exn).

Definition search_movies (params : MovieSearchParams) (w : World)
  : HttpReply * World :=
  match search_tmdb params w with
  | (Ok movies, w') => (Http200 movies, w')
  | (Raise e, w') => (Http502 e, w')
  end.

End Program.

(** ** Vocabulary of the statements *)

(** The calls whose status the code checks with [raise_for_status]: all calls
    to the catalog but the detail call. *)
Definition checked (r : Request) : bool :=
  match r with
  | Detail _ _ | Omdb _ => false
  | _ => true
  end.

(** A reply that lets a request go on: it arrived and, for a checked call,
    has a 2xx status. *)
Definition passes (up : Upstream) (r : Request) : Prop :=
  match up r with
  | NetErr => False
  | Resp status _ => checked r = true -> is_success status = true
  end.

(** A coroutine only ever appends to the log, and when it returns a value
    every request it issued has passed. *)
Definition tracked (up : Upstream) {A} (m : M A) : Prop :=
  forall w res w',
    m w = (res, w') ->
    exists issued,
      log w' = log w ++ issued /\
      forall a, res = Ok a -> Forall (passes up) issued.

(** A coroutine that touches neither the cache nor the clock. *)
Definition cache_free {A} (m : M A) : Prop :=
  forall w res w', m w = (res, w') -> cache w' = cache w /\ now w' = now w.

(** The cache key of the popularity list of a media type. *)
Definition popular_key (is_series : bool) : string :=
  "popular:" +:+ ep_str (endpoint_of is_series).

(** The four keys the program stores under. *)
Definition cache_keys : list string :=
  ["genres:movie"; "genres:tv"; "popular:movie"; "popular:tv"].

(** A coroutine that leaves the clock alone and stores under the given keys
    only. *)
Definition touches_only (keys : list string) {A} (m : M A) : Prop :=
  forall w res w',
    m w = (res, w') ->
    now w' = now w /\ forall k, k ∉ keys -> cache w' !! k = cache w !! k.

(** A coroutine that only appends to the log, and only requests of the given
    kind, whatever its outcome. *)
Definition issues (kind : Request -> bool) {A} (m : M A) : Prop :=
  forall w res w',
    m w = (res, w') ->
    exists issued,
      log w' = log w ++ issued /\ Forall (fun r => kind r = true) issued.

(** The calls the mapper makes for one item. *)
Definition item_call (r : Request) : bool :=
  match r with
  | Credits _ _ | Detail _ _ | Omdb _ => true
  | _ => false
  end.

(** The calls of a title-only search. *)
Definition title_call (r : Request) : bool :=
  match r with
  | Search _ _ | GenreList _ => true
  | _ => item_call r
  end.

(** The calls of a filters-only search. *)
Definition filter_call (r : Request) : bool :=
  match r with
  | GenreList _ | SearchPerson _ | Discover _ _ _ | TvCredits _ => true
  | _ => item_call r
  end.

(** The calls of the popular fallback. *)
Definition popular_call (r : Request) : bool :=
  match r with
  | Popular _ | GenreList _ => true
  | _ => item_call r
  end.

(** The calls of a search by title with filters. *)
Definition title_filter_call (r : Request) : bool :=
  match r with
  | Popular _ => false
  | _ => true
  end.

(** A coroutine whose outcome does not depend on the world it starts in. *)
Definition world_blind {A} (m : M A) : Prop :=
  forall w w', fst (m w) = fst (m w').


(** ** Sample upstream replies, items and queries *)

Module Fx.

Definition body0 : Body :=
  {| b_results := []; b_genres := []; b_cast := []; b_imdb_id := None;
     b_Response := None; b_Title := None; b_Year := None; b_Director := None;
     b_Runtime := None; b_Plot := None; b_Poster := None; b_Ratings := [] |}.

Definition results (l : list RawItem) : Body :=
  {| b_results := l; b_genres := []; b_cast := []; b_imdb_id := None;
     b_Response := None; b_Title := None; b_Year := None; b_Director := None;
     b_Runtime := None; b_Plot := None; b_Poster := None; b_Ratings := [] |}.

Definition taxonomy (l : list (Z * string)) : Body :=
  {| b_results := []; b_genres := l; b_cast := []; b_imdb_id := None;
     b_Response := None; b_Title := None; b_Year := None; b_Director := None;
     b_Runtime := None; b_Plot := None; b_Poster := None; b_Ratings := [] |}.

Definition cast (l : list RawItem) : Body :=
  {| b_results := []; b_genres := []; b_cast := l; b_imdb_id := None;
     b_Response := None; b_Title := None; b_Year := None; b_Director := None;
     b_Runtime := None; b_Plot := None; b_Poster := None; b_Ratings := [] |}.

Definition detail (imdb_id : option string) : Body :=
  {| b_results := []; b_genres := []; b_cast := []; b_imdb_id := imdb_id;
     b_Response := None; b_Title := None; b_Year := None; b_Director := None;
     b_Runtime := None; b_Plot := None; b_Poster := None; b_Ratings := [] |}.

(** The enrichment payload of the mapper test. *)
Definition omdb_payload : Body :=
  {| b_results := []; b_genres := []; b_cast := []; b_imdb_id := None;
     b_Response := Some "True"; b_Title := Some "Override Title";
     b_Year := Some "1999"; b_Director := Some "Dir Name";
     b_Runtime := Some "120 min"; b_Plot := Some "Plot here";
     b_Poster := Some "OMDBPOSTER"; b_Ratings := [("SourceA", "9/10")] |}.

(** An enrichment reply that reports failure. *)
Definition omdb_not_found : Body :=
  {| b_results := []; b_genres := []; b_cast := []; b_imdb_id := None;
     b_Response := Some "False"; b_Title := None; b_Year := None;
     b_Director := None; b_Runtime := None; b_Plot := None; b_Poster := None;
     b_Ratings := [] |}.

Definition item (id : Z) (title date : option string) (genre_ids : list Z)
    (poster_path : option string) : RawItem :=
  {| i_id := Some id; i_title := title; i_name := None; i_release_date := date;
     i_first_air_date := None; i_genre_ids := genre_ids;
     i_poster_path := poster_path |}.

Definition person (name : string) : RawItem :=
  {| i_id := None; i_title := None; i_name := Some name; i_release_date := None;
     i_first_air_date := None; i_genre_ids := []; i_poster_path := None |}.

Definition params (title actors : option string) (type : option MediaType)
    (genre : option string) : MovieSearchParams :=
  {| p_title := title; p_actors := actors; p_type := type; p_genre := genre |}.

Definition world0 : World := {| cache := ∅; now := 0; log := [] |}.

(** Every item has one actor and the cross-reference ID [tt123], and the
    enrichment lookup succeeds. *)
Definition up_merged : Upstream := fun r =>
  match r with
  | Credits _ _ => Resp 200 (Some (cast [person "Actor A"]))
  | Detail _ _ => Resp 200 (Some (detail (Some "tt123")))
  | Omdb _ => Resp 200 (Some omdb_payload)
  | _ => Resp 404 None
  end.

(** As [up_merged], but the enrichment lookup reports failure. *)
Definition up_enrichment_fails : Upstream := fun r =>
  match r with
  | Omdb _ => Resp 200 (Some omdb_not_found)
  | _ => up_merged r
  end.

(** The taxonomy of the cache-miss test, for either media type; every other
    call fails. *)
Definition up_taxonomy : Upstream := fun r =>
  match r with
  | GenreList _ => Resp 200 (Some (taxonomy [(1, "Action")]))
  | _ => Resp 500 None
  end.

(** One popular movie and one popular series; items have no cast and no
    cross-reference ID. *)
Definition up_popular : Upstream := fun r =>
  match r with
  | Popular EpMovie => Resp 200 (Some (results [item 100 (Some "Zulu") None [] None]))
  | Popular EpTv => Resp 200 (Some (results [item 200 (Some "Alpha") None [] None]))
  | GenreList _ => Resp 200 (Some (taxonomy []))
  | Credits _ _ => Resp 200 (Some (cast []))
  | Detail _ _ => Resp 200 (Some (detail None))
  | _ => Resp 500 None
  end.

(** A title search with one hit on each endpoint; the series has a genre
    that is not in the taxonomy and no date. *)
Definition up_search : Upstream := fun r =>
  match r with
  | Search EpTv _ => Resp 200 (Some (results [item 1 (Some "Bar (series)") None [99] None]))
  | Search EpMovie _ =>
      Resp 200 (Some (results [item 2 (Some "Bar") (Some "2020-02-02") [1] None]))
  | GenreList _ => Resp 200 (Some (taxonomy [(1, "Action")]))
  | Credits _ _ => Resp 200 (Some (cast []))
  | Detail _ _ => Resp 200 (Some (detail None))
  | _ => Resp 500 None
  end.

(** As [up_search], but the detail call answers with status 500. *)
Definition up_detail_down : Upstream := fun r =>
  match r with
  | Detail _ _ => Resp 500 None
  | _ => up_search r
  end.

(** No person is found for any name; discovery of series returns one item,
    discovery of movies another; the taxonomy has the genre [Drama]. *)
Definition up_nobody : Upstream := fun r =>
  match r with
  | SearchPerson _ => Resp 200 (Some (results []))
  | Discover EpTv _ _ => Resp 200 (Some (results [item 77 (Some "Show") None [] None]))
  | Discover EpMovie _ _ => Resp 200 (Some (results [item 8 (Some "Film") None [] None]))
  | GenreList _ => Resp 200 (Some (taxonomy [(5, "Drama")]))
  | _ => Resp 500 None
  end.

(** The series taxonomy gives the genre [Drama] the ID [0]; the person found
    has two series credits, one outside the genre and one inside. *)
Definition up_genre_zero : Upstream := fun r =>
  match r with
  | GenreList _ => Resp 200 (Some (taxonomy [(0, "Drama"); (99, "Documentary")]))
  | SearchPerson _ => Resp 200 (Some (results [item 1234 None None [] None]))
  | TvCredits _ =>
      Resp 200 (Some (cast [item 7 (Some "Planet") None [99] None;
                            item 9 (Some "Hospital") None [0] None]))
  | Discover _ _ _ => Resp 200 (Some (results []))
  | Credits _ _ => Resp 200 (Some (cast [person "Jane Doe"]))
  | Detail _ _ => Resp 200 (Some (detail None))
  | _ => Resp 500 None
  end.

(** As [up_genre_zero], with the ID [18] for the genre [Drama]. *)
Definition up_genre_18 : Upstream := fun r =>
  match r with
  | GenreList _ => Resp 200 (Some (taxonomy [(18, "Drama"); (99, "Documentary")]))
  | TvCredits _ =>
      Resp 200 (Some (cast [item 7 (Some "Planet") None [99] None;
                            item 9 (Some "Hospital") None [18] None]))
  | _ => up_genre_zero r
  end.

(** As [up_merged], but the enrichment payload gives a range of years. *)
Definition up_year_range : Upstream := fun r =>
  match r with
  | Omdb _ =>
      Resp 200
        (Some {| b_results := []; b_genres := []; b_cast := []; b_imdb_id := None;
                 b_Response := Some "True"; b_Title := Some "Long Show";
                 b_Year := Some "2011-2019"; b_Director := None;
                 b_Runtime := None; b_Plot := None; b_Poster := None;
                 b_Ratings := [("A", "1/10"); ("B", "5/10"); ("A", "9/10")] |})
  | _ => up_merged r
  end.


(** One popular movie, and a movie taxonomy; genre [Drama] has the ID [0];
    the person search finds the person [42]; discovery of movies with genre
    [0] and cast [42] finds one film. *)
Definition up_discover : Upstream := fun r =>
  match r with
  | GenreList _ => Resp 200 (Some (taxonomy [(0, "Drama"); (35, "Comedy")]))
  | SearchPerson _ => Resp 200 (Some (results [item 42 None None [] None;
                                               item 43 None None [] None]))
  | Discover EpMovie (Some "0") (Some "42") =>
      Resp 200 (Some (results [item 8 (Some "Film") None [0] None]))
  | Popular _ => Resp 200 (Some (results [item 100 (Some "Zulu") None [] None]))
  | Credits _ _ => Resp 200 (Some (cast []))
  | Detail _ _ => Resp 200 (Some (detail None))
  | _ => Resp 500 None
  end.



(** A world whose cache holds an entry of another program. *)
Definition world_foreign : World :=
  {| cache := {[ "session:1" := {| ce_value := DItems []; ce_expires := Some 50 |} ]};
     now := 7;
     log := [] |}.

(** An upstream that is down. *)
Definition up_down : Upstream := fun _ => NetErr.

(** The item of the mapper test: no title, an empty date, a poster path. *)
Definition item101 : RawItem :=
  {| i_id := Some 101; i_title := None; i_name := None; i_release_date := None;
     i_first_air_date := Some ""; i_genre_ids := [];
     i_poster_path := Some "/p.jpg" |}.

(** An item whose release date has the year [0000]. *)
Definition item_year0 : RawItem :=
  item 7 (Some "Anno Zero") (Some "0000-01-01") [] None.

End Fx.

(** * Properties *)

(** ** Built-ins *)

Section PyFacts.

Example str_42 : Py.str 42 = "42". Proof. reflexivity. Qed.
Example str_0 : Py.str 0 = "0". Proof. reflexivity. Qed.
Example str_neg : Py.str (-7) = "-7". Proof. reflexivity. Qed.
Example int_year : Py.int (Py.split_head "1999-03-31") = Some 1999. Proof. reflexivity. Qed.
Example int_zero : Py.int (Py.split_head "0000-01-01") = Some 0. Proof. reflexivity. Qed.
Example int_spaces : Py.int " +1_000 " = Some 1000. Proof. reflexivity. Qed.
Example int_bad : Py.int "2011-" = None. Proof. reflexivity. Qed.
Example int_empty : Py.int "" = None. Proof. reflexivity. Qed.
Example lower_ex : Py.ascii_lower "Sci-Fi" = "sci-fi". Proof. reflexivity. Qed.
Example contains_ex : Py.contains "ali" "alice smith" = true. Proof. reflexivity. Qed.
Example dict_ex :
  Py.dict_of_pairs [(1, "a"); (2, "b"); (1, "c")] = [(1, "c"); (2, "b")].
Proof. reflexivity. Qed.

Lemma nonempty_true s : Py.nonempty s = true <-> s <> EmptyString.
Proof. destruct s; simpl; split; intros; congruence. Qed.

Lemma truthy_Some o :
  Py.truthy o = true <-> exists s, o = Some s /\ s <> EmptyString.
Proof.
  destruct o as [s|]; simpl.
  - rewrite nonempty_true. split.
    + intros H. exists s. auto.
    + intros (s' & [= <-] & H). exact H.
  - split; [discriminate | intros (s & H & _); discriminate].
Qed.

Lemma given_Some o s : given o = Some s <-> o = Some s /\ s <> EmptyString.
Proof.
  unfold given. destruct (Py.truthy o) eqn:E.
  - apply truthy_Some in E as (s' & -> & Hs). split.
    + intros [= <-]. auto.
    + intros [H _]. exact H.
  - split; [discriminate|]. intros [-> Hs].
    simpl in E. apply nonempty_true in Hs. congruence.
Qed.

Lemma given_None o : given o = None <-> Py.truthy o = false.
Proof.
  unfold given. destruct (Py.truthy o) eqn:E; split; try congruence.
  intros ->. discriminate.
Qed.

Lemma given_truthy o : Py.truthy o = true -> given o = o.
Proof. unfold given. now intros ->. Qed.

Lemma append_cons c a s : String c a +:+ s = String c (a +:+ s).
Proof. reflexivity. Qed.

Lemma append_nil s : EmptyString +:+ s = s.
Proof. reflexivity. Qed.

(** [String.prefix] and [Py.contains] against their declarative readings. *)
Lemma prefix_iff a b : String.prefix a b = true <-> exists suf, b = a +:+ suf.
Proof.
  revert b. induction a as [|c a IH]; intros b.
  - split; [intros _; exists b; reflexivity | intros _; destruct b; reflexivity].
  - destruct b as [|d b]; simpl.
    + split; [discriminate | intros (suf & H); discriminate].
    + destruct (ascii_dec c d) as [->|Hne].
      * rewrite IH. split; intros (suf & H); exists suf.
        -- rewrite append_cons. congruence.
        -- rewrite append_cons in H. congruence.
      * split; [discriminate | intros (suf & H)].
        rewrite append_cons in H. congruence.
Qed.

Lemma contains_iff a b : Py.contains a b = true <-> Py.substring_of a b.
Proof.
  unfold Py.substring_of. induction b as [|d b IH].
  - cbn [Py.contains]. rewrite orb_false_r, prefix_iff. split.
    + intros (suf & H). exists EmptyString, suf. exact H.
    + intros ([|c pre] & suf & H); [eauto | discriminate].
  - cbn [Py.contains]. rewrite orb_true_iff, prefix_iff, IH. split.
    + intros [(suf & H) | (pre & suf & H)].
      * exists EmptyString, suf. exact H.
      * exists (String d pre), suf. rewrite append_cons. now rewrite H.
    + intros ([|c pre] & suf & H).
      * left. eauto.
      * right. rewrite append_cons in H. injection H as _ H. eauto.
Qed.

Lemma any_true {A} (p : A -> bool) l :
  Py.any p l = true <-> exists x, x ∈ l /\ p x = true.
Proof.
  unfold Py.any. rewrite existsb_exists.
  split; intros (x & H1 & H2); exists x; split; auto; now apply list_elem_of_In.
Qed.

Lemma any_false {A} (p : A -> bool) l :
  Py.any p l = false <-> forall x, x ∈ l -> p x = false.
Proof.
  rewrite <- not_true_iff_false, any_true. split.
  - intros H x Hx. destruct (p x) eqn:E; [|reflexivity].
    exfalso. apply H. eauto.
  - intros H (x & Hx & Hp). rewrite (H x Hx) in Hp. discriminate.
Qed.

End PyFacts.

(** ** Ordering of strings and the stable sort *)

Section Sorting.

Lemma leb_refl s : String.leb s s = true.
Proof. destruct (String.leb_total s s); assumption. Qed.

Lemma leb_trans a b c :
  String.leb a b = true -> String.leb b c = true -> String.leb a c = true.
Proof.
  unfold String.leb. revert b c.
  induction a as [|x a IH]; intros [|y b] [|z c]; simpl; try easy.
  unfold Ascii.compare.
  destruct (N.compare_spec (N_of_ascii x) (N_of_ascii y));
    destruct (N.compare_spec (N_of_ascii y) (N_of_ascii z));
    destruct (N.compare_spec (N_of_ascii x) (N_of_ascii z));
    try easy; try lia.
  apply IH.
Qed.

Context {A : Type} (key : A -> string).

Lemma key_le_trans : Transitive (Py.key_le key).
Proof. intros a b c. apply leb_trans. Qed.

Lemma insert_by_perm x l : Py.insert_by key x l ≡ₚ x :: l.
Proof.
  induction l as [|y r IH]; simpl; [reflexivity|].
  destruct (String.leb (key x) (key y)); [reflexivity|].
  rewrite IH. apply Permutation_swap.
Qed.

Lemma sort_by_perm l : Py.sort_by key l ≡ₚ l.
Proof.
  induction l as [|x r IH]; simpl; [reflexivity|].
  rewrite insert_by_perm. now rewrite IH.
Qed.

Lemma insert_by_sorted x l :
  Sorted (Py.key_le key) l -> Sorted (Py.key_le key) (Py.insert_by key x l).
Proof.
  induction l as [|y r IH]; intros Hs; simpl.
  - repeat constructor.
  - destruct (String.leb (key x) (key y)) eqn:E.
    + constructor; [exact Hs | constructor; exact E].
    + inversion Hs as [|? ? Hr Hhd]; subst.
      assert (Hyx : Py.key_le key y x).
      { destruct (String.leb_total (key x) (key y)); [congruence | assumption]. }
      constructor; [apply IH; exact Hr|].
      destruct r as [|z r']; simpl.
      * constructor. exact Hyx.
      * destruct (String.leb (key x) (key z)); constructor; [exact Hyx|].
        inversion Hhd; assumption.
Qed.

Lemma sort_by_sorted l : Sorted (Py.key_le key) (Py.sort_by key l).
Proof.
  induction l as [|x r IH]; simpl; [constructor | now apply insert_by_sorted].
Qed.

Lemma sort_by_strongly_sorted l : StronglySorted (Py.key_le key) (Py.sort_by key l).
Proof. apply Sorted_StronglySorted; [apply key_le_trans | apply sort_by_sorted]. Qed.

(** Stability: records with equal keys keep their relative order. *)
Lemma insert_by_stable k x l :
  List.filter (fun y => String.eqb (key y) k) (Py.insert_by key x l)
  = List.filter (fun y => String.eqb (key y) k) (x :: l).
Proof.
  induction l as [|y r IH]; [reflexivity|].
  cbn [Py.insert_by]. destruct (String.leb (key x) (key y)) eqn:E; [reflexivity|].
  cbn [List.filter] in *. rewrite IH.
  destruct (String.eqb_spec (key x) k) as [Hx|Hx];
    destruct (String.eqb_spec (key y) k) as [Hy|Hy]; try reflexivity.
  rewrite Hx, <- Hy, leb_refl in E. discriminate.
Qed.

Lemma sort_by_stable k l :
  List.filter (fun y => String.eqb (key y) k) (Py.sort_by key l)
  = List.filter (fun y => String.eqb (key y) k) l.
Proof.
  induction l as [|x r IH]; [reflexivity|].
  cbn [Py.sort_by foldr]. rewrite insert_by_stable.
  cbn [List.filter]. fold (Py.sort_by key r). now rewrite IH.
Qed.

Lemma sort_by_length l : length (Py.sort_by key l) = length l.
Proof. apply Permutation_length, sort_by_perm. Qed.

End Sorting.

(** ** Dictionaries *)

Section Dicts.

Context {K V : Type} `{EqDecision K}.

Lemma dict_set_fresh (k : K) (v : V) d :
  k ∉ d.*1 -> Py.dict_set k v d = d ++ [(k, v)].
Proof.
  induction d as [|[k' v'] r IH]; intros Hk; simpl; [reflexivity|].
  rewrite fmap_cons, not_elem_of_cons in Hk. destruct Hk as [Hne Hk].
  simpl in Hne. destruct (decide (k' = k)); [congruence|]. now rewrite IH.
Qed.

Lemma dict_set_keys (k : K) (v : V) d :
  (Py.dict_set k v d).*1 = if decide (k ∈ d.*1) then d.*1 else d.*1 ++ [k].
Proof.
  induction d as [|[k' v'] r IH].
  - destruct (decide (k ∈ ([] : list (K * V)).*1)) as [Hin|_]; [|reflexivity].
    inversion Hin.
  - cbn [Py.dict_set]. rewrite !fmap_cons. cbn [fst].
    destruct (decide (k' = k)) as [->|Hne].
    + rewrite decide_True by left. reflexivity.
    + rewrite fmap_cons, IH. cbn [fst].
      destruct (decide (k ∈ r.*1)) as [Hin|Hin].
      * rewrite decide_True by (right; exact Hin). reflexivity.
      * rewrite decide_False; [reflexivity|].
        intros [Heq|Hr]%elem_of_cons; [congruence | contradiction].
Qed.

Lemma dict_set_NoDup (k : K) (v : V) d :
  NoDup d.*1 -> NoDup (Py.dict_set k v d).*1.
Proof.
  intros Hd. rewrite dict_set_keys. destruct (decide (k ∈ d.*1)); [exact Hd|].
  apply NoDup_app. repeat split; [exact Hd | | apply NoDup_singleton].
  intros x Hx ->%list_elem_of_singleton. contradiction.
Qed.

Lemma fold_dict_set_NoDup (l acc : list (K * V)) :
  NoDup acc.*1 ->
  NoDup (fold_left (fun d kv => Py.dict_set (fst kv) (snd kv) d) l acc).*1.
Proof.
  revert acc. induction l as [|[k v] r IH]; intros acc Hacc; simpl; [exact Hacc|].
  apply IH, dict_set_NoDup, Hacc.
Qed.

(** The keys of a dictionary are pairwise distinct. *)
Lemma dict_of_pairs_NoDup (l : list (K * V)) : NoDup (Py.dict_of_pairs l).*1.
Proof. apply fold_dict_set_NoDup. constructor. Qed.

Lemma fold_dict_set_id (l acc : list (K * V)) :
  NoDup (acc ++ l).*1 ->
  fold_left (fun d kv => Py.dict_set (fst kv) (snd kv) d) l acc = acc ++ l.
Proof.
  revert acc. induction l as [|[k v] r IH]; intros acc Hnd; simpl.
  - now rewrite app_nil_r.
  - rewrite dict_set_fresh.
    + rewrite IH; rewrite <- app_assoc; [reflexivity | exact Hnd].
    + rewrite fmap_app, fmap_cons in Hnd. apply NoDup_app in Hnd as (_ & Hd & _).
      intros Hin. apply (Hd k Hin). simpl. left.
Qed.

(** Rebuilding a dictionary from its own items gives it back. *)
Lemma dict_of_pairs_id (d : list (K * V)) :
  NoDup d.*1 -> Py.dict_of_pairs d = d.
Proof. intros Hd. apply (fold_dict_set_id d []). exact Hd. Qed.

End Dicts.

(** ** Integers and their decimal text *)

Section Decimal.

Lemma digit_facts c :
  Py.is_digit c = true ->
  Py.is_space c = false /\ Ascii.eqb c "_" = false
  /\ Ascii.eqb c "-" = false /\ Ascii.eqb c "+" = false.
Proof.
  destruct c as [[] [] [] [] [] [] [] []]; vm_compute; intros H;
    try discriminate H; auto.
Qed.

Lemma string_of_uint_digits d :
  Py.all_chars Py.is_digit (NilEmpty.string_of_uint d) = true.
Proof. induction d; simpl; auto. Qed.

Lemma rstrip_digits s : Py.all_chars Py.is_digit s = true -> Py.rstrip s = s.
Proof.
  induction s as [|c r IH]; simpl; [reflexivity|].
  intros [Hc Hr]%andb_true_iff. rewrite (IH Hr).
  destruct (digit_facts c Hc) as (-> & _). now destruct r.
Qed.

Lemma strip_digits s : Py.all_chars Py.is_digit s = true -> Py.strip s = s.
Proof.
  intros H. unfold Py.strip.
  destruct s as [|c r]; [reflexivity|]. cbn [Py.lstrip].
  pose proof H as [Hc _]%andb_true_iff.
  destruct (digit_facts c Hc) as (-> & _). now apply rstrip_digits.
Qed.

Lemma drop_us_digits s :
  Py.all_chars Py.is_digit s = true -> Py.drop_us true s = Some s.
Proof.
  induction s as [|c r IH]; simpl; [reflexivity|].
  intros [Hc Hr]%andb_true_iff.
  destruct (digit_facts c Hc) as (_ & -> & _). now rewrite (IH Hr).
Qed.

Lemma int_digits_uint d :
  d <> Nil -> Py.int_digits (NilEmpty.string_of_uint d) = Some (Z.of_uint d).
Proof.
  intros Hd. unfold Py.int_digits.
  pose proof (string_of_uint_digits d) as Hall.
  destruct (NilEmpty.string_of_uint d) as [|c r] eqn:E.
  - destruct d; simpl in E; congruence.
  - cbn [Py.drop_us]. simpl in Hall. apply andb_true_iff in Hall as [Hc Hr].
    destruct (digit_facts c Hc) as (_ & -> & _).
    rewrite (drop_us_digits r Hr). cbn [option_map].
    rewrite <- E, NilEmpty.usu. reflexivity.
Qed.

Lemma of_uint_pos p : Z.of_uint (Pos.to_uint p) = Z.pos p.
Proof. unfold Z.of_uint. now rewrite DecimalPos.Unsigned.of_to. Qed.

Lemma int_pos_text p :
  Py.int (NilEmpty.string_of_uint (Pos.to_uint p)) = Some (Z.pos p).
Proof.
  unfold Py.int. rewrite strip_digits by apply string_of_uint_digits.
  pose proof (string_of_uint_digits (Pos.to_uint p)) as Hall.
  pose proof (int_digits_uint _ (DecimalPos.Unsigned.to_uint_nonnil p)) as Hd.
  destruct (NilEmpty.string_of_uint (Pos.to_uint p)) as [|c r] eqn:E.
  - discriminate Hd.
  - simpl in Hall. apply andb_true_iff in Hall as [Hc _].
    destruct (digit_facts c Hc) as (_ & _ & -> & ->).
    rewrite Hd, of_uint_pos. reflexivity.
Qed.

(** [int(str(n)) == n]. *)
Lemma int_str z : Py.int (Py.str z) = Some z.
Proof.
  destruct z as [|p|p]; [reflexivity| |]; unfold Py.str, Z.to_int;
    cbn [NilZero.string_of_int]; unfold NilZero.string_of_uint;
    pose proof (DecimalPos.Unsigned.to_uint_nonnil p) as Hnn.
  - destruct (Pos.to_uint p) eqn:E; try congruence; rewrite <- E; apply int_pos_text.
  - assert (Ht : match Pos.to_uint p with
                 | Nil => "0"
                 | _ => NilEmpty.string_of_uint (Pos.to_uint p)
                 end = NilEmpty.string_of_uint (Pos.to_uint p))
      by (destruct (Pos.to_uint p); congruence).
    rewrite Ht. unfold Py.int, Py.strip. cbn [Py.lstrip].
    change (Py.is_space "-") with false. cbv iota.
    cbn [Py.rstrip]. rewrite rstrip_digits by apply string_of_uint_digits.
    pose proof (int_digits_uint _ Hnn) as Hd.
    destruct (NilEmpty.string_of_uint (Pos.to_uint p)) eqn:E.
    + discriminate Hd.
    + change (Ascii.eqb "-" "-") with true. cbv iota.
      rewrite Hd, of_uint_pos. reflexivity.
Qed.

(** The text of an integer is never empty. *)
Lemma str_nonempty z : Py.nonempty (Py.str z) = true.
Proof.
  destruct z as [|p|p]; [reflexivity| |]; unfold Py.str, Z.to_int;
    cbn [NilZero.string_of_int]; [|reflexivity].
  unfold NilZero.string_of_uint.
  pose proof (int_digits_uint _ (DecimalPos.Unsigned.to_uint_nonnil p)) as Hd.
  destruct (Pos.to_uint p) eqn:E; try reflexivity;
    rewrite <- E in *; destruct (NilEmpty.string_of_uint (Pos.to_uint p));
    try reflexivity; discriminate Hd.
Qed.

End Decimal.

(** ** Running coroutines *)

Section Coroutines.

Context {A B : Type}.

Lemma bind_Ok (m : M A) (k : A -> M B) w b w' :
  bind m k w = (Ok b, w') <->
  exists a w1, m w = (Ok a, w1) /\ k a w1 = (Ok b, w').
Proof.
  unfold bind. split.
  - destruct (m w) as [[a|e] w1]; [eauto | discriminate].
  - intros (a & w1 & -> & H). exact H.
Qed.

Lemma bind_run (m : M A) (k : A -> M B) w a w1 :
  m w = (Ok a, w1) -> bind m k w = k a w1.
Proof. unfold bind. now intros ->. Qed.


Lemma ret_Ok (a b : A) w w' : ret a w = (Ok b, w') <-> a = b /\ w = w'.
Proof. unfold ret. split; [intros [= -> ->]; auto | intros [-> ->]; reflexivity]. Qed.

End Coroutines.

Section Gather.

Context {A B : Type}.

Lemma gather_run (f : A -> M B) l w ys w' :
  gather f l w = (Ok ys, w') ->
  Forall2 (fun x y => exists w1 w2, f x w1 = (Ok y, w2)) l ys.
Proof.
  revert w ys. induction l as [|x r IH]; intros w ys H; simpl in H.
  - apply ret_Ok in H as [<- _]. constructor.
  - apply bind_Ok in H as (y & w1 & Hy & H).
    apply bind_Ok in H as (ys' & w2 & Hr & H).
    apply ret_Ok in H as [<- <-]. constructor.
    + exists w, w1. exact Hy.
    + eapply IH, Hr.
Qed.

Lemma gather_length (f : A -> M B) l w ys w' :
  gather f l w = (Ok ys, w') -> length ys = length l.
Proof. intros H. symmetry. eapply Forall2_length, gather_run, H. Qed.

Lemma gather_app (f : A -> M B) l1 l2 w ys1 w1 ys2 w2 :
  gather f l1 w = (Ok ys1, w1) ->
  gather f l2 w1 = (Ok ys2, w2) ->
  gather f (l1 ++ l2) w = (Ok (ys1 ++ ys2), w2).
Proof.
  revert w ys1. induction l1 as [|x r IH]; intros w ys1 H1 H2; simpl in *.
  - apply ret_Ok in H1 as [<- <-]. exact H2.
  - apply bind_Ok in H1 as (y & wa & Hy & H1).
    apply bind_Ok in H1 as (ys' & wb & Hr & H1).
    apply ret_Ok in H1 as [<- <-].
    rewrite (bind_run _ _ _ _ _ Hy).
    rewrite (bind_run _ _ _ _ _ (IH _ _ Hr H2)). reflexivity.
Qed.

Lemma gather_app_inv (f : A -> M B) l1 l2 w ys w2 :
  gather f (l1 ++ l2) w = (Ok ys, w2) ->
  exists ys1 w1 ys2,
    gather f l1 w = (Ok ys1, w1) /\ gather f l2 w1 = (Ok ys2, w2)
    /\ ys = ys1 ++ ys2.
Proof.
  revert w ys. induction l1 as [|x r IH]; intros w ys H; simpl in *.
  - exists [], w, ys. auto.
  - apply bind_Ok in H as (y & wa & Hy & H).
    apply bind_Ok in H as (ys' & wb & Hr & H).
    apply ret_Ok in H as [<- <-].
    destruct (IH _ _ Hr) as (ys1 & w1 & ys2 & H1 & H2 & ->).
    exists (y :: ys1), w1, ys2. repeat split; [|exact H2].
    rewrite (bind_run _ _ _ _ _ Hy), (bind_run _ _ _ _ _ H1). reflexivity.
Qed.

End Gather.

Lemma gather_map {A B C} (g : A -> B) (f : B -> M C) l :
  gather f (map g l) = gather (fun x => f (g x)) l.
Proof. induction l as [|x r IH]; simpl; [reflexivity | now rewrite IH]. Qed.

(** Inverts a successful run of a sequence of awaits. *)
Ltac inv_run H :=
  repeat
    (first
       [ apply ret_Ok in H as [? ?]
       | let a := fresh "a" in
         let w := fresh "w" in
         let Ha := fresh "Hrun" in
         apply bind_Ok in H as (a & w & Ha & H) ]).

(** ** The record mapper *)

Section Mapper.

Variable up : Upstream.

Lemma int_or_raise_Ok s z w w' :
  int_or_raise s w = (Ok z, w') <-> Py.int s = Some z /\ w = w'.
Proof.
  unfold int_or_raise. destruct (Py.int s) as [y|].
  - rewrite ret_Ok. split; [intros [-> ->]; auto | intros [[= ->] ->]; auto].
  - split; [discriminate | intros [[=] _]].
Qed.

Lemma catalog_year_Ok item year w w' :
  catalog_year item w = (Ok year, w') ->
  w' = w /\
  match given (catalog_date item) with
  | Some d => exists y, Py.int (Py.split_head d) = Some y /\ year = Some y
  | None => year = None
  end.
Proof.
  unfold catalog_year. destruct (given (catalog_date item)) as [d|]; intros H.
  - inv_run H. apply int_or_raise_Ok in Hrun as [Hy ->]. subst. eauto.
  - inv_run H. subst. auto.
Qed.

Lemma merged_year_Ok year o year' w w' :
  merged_year year o w = (Ok year', w') ->
  w' = w /\
  if Py.truthy_int year then year' = year
  else match given (b_Year o) with
       | Some y => exists z, Py.int y = Some z /\ year' = Some z
       | None => year' = None
       end.
Proof.
  unfold merged_year. destruct (Py.truthy_int year); intros H.
  - inv_run H. subst. auto.
  - destruct (given (b_Year o)) as [y|].
    + inv_run H. apply int_or_raise_Ok in Hrun as [Hy ->]. subst. eauto.
    + inv_run H. subst. auto.
Qed.

(** What a successful run of the mapper went through, and the record it
    built. *)
Lemma map_to_movie_inv item ep genres params w r w' :
  map_to_movie up item ep genres params w = (Ok r, w') ->
  exists year actors imdb_id omdb w1 w2,
    catalog_year item w = (Ok year, w) /\
    _fetch_credits up ep (i_id item) w = (Ok actors, w1) /\
    _get_imdb_id up ep (i_id item) w1 = (Ok imdb_id, w2) /\
    enrichment up imdb_id w2 = (Ok omdb, w') /\
    m_id r = default (Py.str_opt (i_id item)) (given imdb_id) /\
    m_type r = default (match ep with EpTv => Series | EpMovie => Movie end)
                       (p_type params) /\
    m_genres r = omap (fun g => given (Py.dict_get g genres)) (i_genre_ids item) /\
    m_actors r = actors /\
    match omdb with
    | Some o =>
        Py.or_else (catalog_title item) (b_Title o) = Some (m_title r) /\
        merged_year year o w' = (Ok (m_year r), w') /\
        m_director r = b_Director o /\ m_runtime r = b_Runtime o /\
        m_plot r = b_Plot o /\
        m_poster_url r = (if Py.truthy (i_poster_path item)
                          then tmdb_poster item else b_Poster o) /\
        m_ratings r = Py.dict_of_pairs (b_Ratings o) /\
        m_source r = Merged
    | None =>
        catalog_title item = Some (m_title r) /\
        m_year r = year /\
        m_director r = None /\ m_runtime r = None /\ m_plot r = None /\
        m_poster_url r = tmdb_poster item /\
        m_ratings r = [] /\
        m_source r = TMDB
    end.
Proof.
  unfold map_to_movie. intros H.
  apply bind_Ok in H as (year & w0 & Hyear & H).
  destruct (catalog_year_Ok _ _ _ _ Hyear) as [-> _].
  apply bind_Ok in H as (actors & w1 & Hact & H).
  apply bind_Ok in H as (imdb_id & w2 & Himdb & H).
  apply bind_Ok in H as (omdb & w3 & Homdb & H).
  apply bind_Ok in H as (fields & w4 & Hf & H).
  exists year, actors, imdb_id, omdb, w1, w2.
  destruct omdb as [o|].
  - apply bind_Ok in Hf as (year' & w5 & Hy' & Hf).
    destruct (merged_year_Ok _ _ _ _ _ Hy') as [-> _].
    apply ret_Ok in Hf as [<- <-].
    destruct (Py.or_else (catalog_title item) (b_Title o)) as [t|] eqn:Et;
      [|discriminate H].
    apply ret_Ok in H as [<- <-]. cbn. repeat split; assumption.
  - apply ret_Ok in Hf as [<- <-].
    destruct (catalog_title item) as [t|] eqn:Et; [|discriminate H].
    apply ret_Ok in H as [<- <-]. cbn. repeat split; assumption.
Qed.

End Mapper.

Section MapperClaims.

Variable up : Upstream.
Variable lower : string -> string.

Lemma enrichment_Some imdb_id o w w' :
  enrichment up imdb_id w = (Ok (Some o), w') ->
  exists i, given imdb_id = Some i /\ _fetch_omdb_data up i w = (Ok (Some o), w').
Proof.
  unfold enrichment. destruct (given imdb_id) as [i|]; intros H.
  - eauto.
  - apply ret_Ok in H as [[=] _].
Qed.

Lemma enrichment_unresolved imdb_id w :
  given imdb_id = None -> enrichment up imdb_id w = (Ok None, w).
Proof. unfold enrichment. now intros ->. Qed.

(** The enrichment lookup yields a payload exactly on status 200 with
    [Response] equal to ["True"]. *)
Lemma _fetch_omdb_data_Some i o w w' :
  _fetch_omdb_data up i w = (Ok (Some o), w') <->
  up (Omdb i) = Resp 200 (Some o) /\ b_Response o = Some "True"
  /\ w' = {| cache := cache w; now := now w; log := log w ++ [Omdb i] |}.
Proof.
  unfold _fetch_omdb_data, bind, client_get, json.
  destruct (up (Omdb i)) as [|st [b|]]; simpl.
  - split; [discriminate | intros [[=] _]].
  - destruct (Z.eqb_spec st 200) as [->|Hst]; simpl.
    + case_bool_decide as Hr; unfold ret.
      * split; [intros [= -> <-]; auto | intros ([= ->] & _ & ->); reflexivity].
      * split; [discriminate | intros ([= ->] & Hr' & _); contradiction].
    + unfold ret. split; [discriminate | intros ([= -> _] & _); contradiction].
  - unfold raise. split; [discriminate | intros [[=] _]].
Qed.

(** C4, as amended. For every record the mapper produces: its provenance is
    Merged exactly when a cross-reference ID was resolved and the enrichment
    lookup returned a payload; without a payload the provenance is TMDB, the
    ratings are empty and director, runtime and plot are unset; the id is the
    native ID as text when no cross-reference ID resolves, and the
    cross-reference ID whenever one resolves, also when enrichment fails. *)
Theorem C4_provenance item ep genres params w r w' :
  map_to_movie up item ep genres params w = (Ok r, w') ->
  exists imdb_id omdb w1 w2,
    _get_imdb_id up ep (i_id item) w1 = (Ok imdb_id, w2) /\
    enrichment up imdb_id w2 = (Ok omdb, w') /\
    (m_source r = Merged <->
       (exists i, given imdb_id = Some i) /\ (exists o, omdb = Some o)) /\
    (omdb = None ->
       m_source r = TMDB /\ m_ratings r = [] /\ m_director r = None
       /\ m_runtime r = None /\ m_plot r = None) /\
    (given imdb_id = None -> omdb = None /\ m_id r = Py.str_opt (i_id item)) /\
    (forall i, given imdb_id = Some i -> m_id r = i).
Proof.
  intros H.
  destruct (map_to_movie_inv _ _ _ _ _ _ _ _ H)
    as (year & actors & imdb_id & omdb & w1 & w2 & _ & _ & Himdb & Henr
        & Hid & _ & _ & _ & Hrest).
  exists imdb_id, omdb, w1, w2. split; [exact Himdb|]. split; [exact Henr|].
  assert (Hres : forall o, omdb = Some o -> exists i, given imdb_id = Some i).
  { intros o ->. destruct (enrichment_Some _ _ _ _ Henr) as (i & Hi & _). eauto. }
  split; [|split; [|split]].
  - destruct omdb as [o|]; split.
    + intros _. split; eauto.
    + intros _. apply Hrest.
    + destruct Hrest as (_ & _ & _ & _ & _ & _ & _ & Hs). congruence.
    + intros [_ [o [=]]].
  - intros ->. destruct Hrest as (_ & _ & Hd & Hr & Hp & _ & Hra & Hs). auto.
  - intros Hnone. split.
    + destruct omdb as [o|]; [|reflexivity].
      destruct (Hres o eq_refl) as (i & Hi). congruence.
    + rewrite Hid, Hnone. reflexivity.
  - intros i Hi. rewrite Hid, Hi. reflexivity.
Qed.

End MapperClaims.

(** C4 at the item of the mapper test, when the enrichment lookup reports
    failure. *)
Lemma C4_provenance_witness :
  exists r w',
    map_to_movie Fx.up_enrichment_fails Fx.item101 EpMovie []
      (Fx.params None None None None) Fx.world0 = (Ok r, w')
    /\ exists imdb_id omdb w1 w2,
      _get_imdb_id Fx.up_enrichment_fails EpMovie (i_id Fx.item101) w1
        = (Ok imdb_id, w2) /\
      enrichment Fx.up_enrichment_fails imdb_id w2 = (Ok omdb, w') /\
      (m_source r = Merged <->
         (exists i, given imdb_id = Some i) /\ (exists o, omdb = Some o)) /\
      (omdb = None ->
         m_source r = TMDB /\ m_ratings r = [] /\ m_director r = None
         /\ m_runtime r = None /\ m_plot r = None) /\
      (given imdb_id = None -> omdb = None /\ m_id r = Py.str_opt (i_id Fx.item101)) /\
      (forall i, given imdb_id = Some i -> m_id r = i).
Proof.
  eexists _, _. split; [vm_compute; reflexivity|].
  apply (C4_provenance Fx.up_enrichment_fails Fx.item101 EpMovie []
           (Fx.params None None None None) Fx.world0).
  vm_compute; reflexivity.
Defined.

(** C4 as stated fails: the cross-reference ID [tt123] resolves, the
    enrichment lookup reports failure, the record has provenance TMDB, and its
    id is [tt123], not the native ID [101] as text. *)
Lemma C4_counterexample :
  exists r w1 w2,
    map_to_movie Fx.up_enrichment_fails Fx.item101 EpMovie []
      (Fx.params None None None None) Fx.world0 = (Ok r, w2)
    /\ enrichment Fx.up_enrichment_fails (Some "tt123") w1 = (Ok None, w2)
    /\ m_source r = TMDB
    /\ m_id r = "tt123"
    /\ m_id r <> Py.str_opt (i_id Fx.item101).
Proof.
  eexists _, {| cache := ∅; now := 0;
                log := [Credits EpMovie (Some 101); Detail EpMovie (Some 101)] |}, _.
  split; [vm_compute; reflexivity|]. split; [vm_compute; reflexivity|].
  split; [reflexivity|]. split; [reflexivity|]. vm_compute. discriminate.
Qed.

Section MergedRecord.

Variable up : Upstream.

(** The fields of a record that was merged with an enrichment payload [o]:
    crew and plot come from [o]; the ratings are the dictionary of the rating
    list; the catalog poster path, when present, wins over the poster of [o];
    a non-empty catalog title is kept and an empty one is replaced by the
    title of [o]; a catalog year other than [0] is kept, and an unset one is
    replaced by the year of [o]. *)
Lemma merged_record_fields item ep genres params w r w' :
  map_to_movie up item ep genres params w = (Ok r, w') ->
  m_source r = Merged ->
  exists imdb_id o w2 year,
    enrichment up imdb_id w2 = (Ok (Some o), w') /\
    catalog_year item w = (Ok year, w) /\
    m_director r = b_Director o /\ m_runtime r = b_Runtime o /\
    m_plot r = b_Plot o /\
    m_ratings r = Py.dict_of_pairs (b_Ratings o) /\
    (forall path, i_poster_path item = Some path -> path <> "" ->
       m_poster_url r = Some (poster_base +:+ path)) /\
    (Py.truthy (i_poster_path item) = false -> m_poster_url r = b_Poster o) /\
    (forall t, catalog_title item = Some t -> t <> "" -> m_title r = t) /\
    (catalog_title item = Some "" -> b_Title o = Some (m_title r)) /\
    (forall y, year = Some y -> y <> 0 -> m_year r = Some y) /\
    (year = None -> Py.truthy (b_Year o) = false -> m_year r = None) /\
    (year = None -> forall y, b_Year o = Some y -> y <> "" ->
       exists z, Py.int y = Some z /\ m_year r = Some z).
Proof.
  intros H Hsrc.
  destruct (map_to_movie_inv _ _ _ _ _ _ _ _ H)
    as (year & actors & imdb_id & omdb & w1 & w2 & Hyear & _ & _ & Henr
        & _ & _ & _ & _ & Hrest).
  destruct omdb as [o|];
    [|destruct Hrest as (_ & _ & _ & _ & _ & _ & _ & Hs); congruence].
  exists imdb_id, o, w2, year.
  destruct Hrest as (Ht & Hmy & Hd & Hr & Hp & Hpo & Hra & Hs).
  destruct (merged_year_Ok _ _ _ _ _ Hmy) as [_ Hmy'].
  repeat (split; [assumption|]).
  split; [|split; [|split; [|split; [|split; [|split]]]]].
  - intros path Hpath Hne. rewrite Hpo. unfold tmdb_poster.
    assert (Hg : given (i_poster_path item) = Some path)
      by (apply given_Some; auto).
    rewrite Hpath. simpl. rewrite (proj2 (nonempty_true path) Hne).
    rewrite Hpath in Hg. rewrite Hg. reflexivity.
  - intros Hf. rewrite Hpo, Hf. reflexivity.
  - intros t Hct Hne. rewrite Hct in Ht. unfold Py.or_else in Ht.
    simpl in Ht. rewrite (proj2 (nonempty_true t) Hne) in Ht. congruence.
  - intros Hct. rewrite Hct in Ht. unfold Py.or_else in Ht. simpl in Ht.
    exact Ht.
  - intros y -> Hne. simpl in Hmy'.
    destruct (Z.eqb_spec y 0); [contradiction|]. simpl in Hmy'. exact Hmy'.
  - intros -> Hf. simpl in Hmy'. apply given_None in Hf. rewrite Hf in Hmy'.
    exact Hmy'.
  - intros -> y Hy Hne. simpl in Hmy'.
    assert (Hg : given (b_Year o) = Some y) by (apply given_Some; auto).
    rewrite Hg in Hmy'. exact Hmy'.
Qed.

End MergedRecord.

(** The mapper test: the item has no title and an empty date, so title and
    year come from the enrichment payload, and the catalog poster path wins. *)
Lemma mapper_test_with_omdb :
  fst (map_to_movie Fx.up_merged Fx.item101 EpMovie []
         (Fx.params None None None None) Fx.world0)
  = Ok {| m_id := "tt123"; m_title := "Override Title"; m_year := Some 1999;
          m_type := Movie; m_genres := []; m_actors := ["Actor A"];
          m_director := Some "Dir Name"; m_runtime := Some "120 min";
          m_plot := Some "Plot here";
          m_poster_url := Some "https://image.tmdb.org/t/p/w500/p.jpg";
          m_ratings := [("SourceA", "9/10")]; m_source := Merged |}.
Proof. vm_compute. reflexivity. Qed.

(** C5 at a release date in the year 0000: the catalog year is [0], not
    unset, and the merged record carries the year of the enrichment payload
    all the same. *)
Lemma C5_year_zero_overridden :
  catalog_year Fx.item_year0 Fx.world0 = (Ok (Some 0), Fx.world0)
  /\ exists r w',
       map_to_movie Fx.up_merged Fx.item_year0 EpMovie []
         (Fx.params None None None None) Fx.world0 = (Ok r, w')
       /\ m_source r = Merged
       /\ m_title r = "Anno Zero"
       /\ m_year r = Some 1999.
Proof.
  split; [vm_compute; reflexivity|].
  eexists _, _. split; [vm_compute; reflexivity|]. repeat split.
Qed.

Section MediaTypeOfRecord.

Variable up : Upstream.
Variable lower : string -> string.

(** C10. When the query names a media type, every record the mapper produces
    with that query carries this media type, whichever endpoint the item came
    from; hence, for the match filter, the query is as good as the same query
    without a media type: the comparison of media types excludes nothing. *)
Theorem C10_media_type_of_query item ep genres params t w r w' :
  p_type params = Some t ->
  map_to_movie up item ep genres params w = (Ok r, w') ->
  m_type r = t /\
  matches lower r params
  = matches lower r {| p_title := p_title params; p_actors := p_actors params;
                       p_type := None; p_genre := p_genre params |}.
Proof.
  intros Ht H.
  destruct (map_to_movie_inv _ _ _ _ _ _ _ _ H)
    as (_ & _ & _ & _ & _ & _ & _ & _ & _ & _ & _ & Hty & _).
  rewrite Ht in Hty. simpl in Hty. split; [exact Hty|].
  unfold matches. cbn [p_type p_genre p_actors]. rewrite Ht.
  rewrite bool_decide_eq_true_2 by exact Hty. reflexivity.
Qed.

End MediaTypeOfRecord.

(** C10 for a series query and an item found on the movie endpoint. *)
Lemma C10_media_type_of_query_witness :
  exists r w',
    map_to_movie Fx.up_merged Fx.item101 EpMovie []
      (Fx.params None None (Some Series) None) Fx.world0 = (Ok r, w')
    /\ m_type r = Series
    /\ matches Py.ascii_lower r (Fx.params None None (Some Series) None)
       = matches Py.ascii_lower r (Fx.params None None None None).
Proof.
  eexists _, _. split; [vm_compute; reflexivity|].
  eapply (C10_media_type_of_query Fx.up_merged Py.ascii_lower Fx.item101 EpMovie
            [] (Fx.params None None (Some Series) None) Series Fx.world0);
    [reflexivity | vm_compute; reflexivity].
Defined.

(** ** The match filter *)

Section MatchFilter.

Variable lower : string -> string.

Lemma type_excludes (movie : MovieResponse) (params : MovieSearchParams) :
  match p_type params with
  | Some t => negb (bool_decide (m_type movie = t))
  | None => false
  end = true <->
  exists t, p_type params = Some t /\ m_type movie <> t.
Proof.
  destruct (p_type params) as [t|].
  - rewrite negb_true_iff, bool_decide_eq_false. split.
    + intros H. exists t. auto.
    + intros (t' & [= <-] & H). exact H.
  - split; [discriminate | intros (t & [=] & _)].
Qed.

Lemma genre_excludes (movie : MovieResponse) (params : MovieSearchParams) :
  match given (p_genre params) with
  | Some g =>
      negb (Py.any (fun x => String.eqb (lower x) (lower g)) (m_genres movie))
  | None => false
  end = true <->
  exists g, p_genre params = Some g /\ g <> "" /\
            forall x, x ∈ m_genres movie -> lower x <> lower g.
Proof.
  destruct (given (p_genre params)) as [g|] eqn:E.
  - apply given_Some in E as [E Hne].
    rewrite negb_true_iff, any_false. split.
    + intros H. exists g. repeat split; auto.
      intros x Hx. apply String.eqb_neq, H, Hx.
    + intros (g' & Hg & _ & H) x Hx. rewrite E in Hg. injection Hg as <-.
      apply String.eqb_neq, H, Hx.
  - split; [discriminate|]. intros (g & Hg & Hne & _).
    assert (given (p_genre params) = Some g) by (apply given_Some; auto).
    congruence.
Qed.

Lemma actors_excludes (movie : MovieResponse) (params : MovieSearchParams) :
  match given (p_actors params) with
  | Some a =>
      negb (Py.any (fun x => Py.contains (lower a) (lower x)) (m_actors movie))
  | None => false
  end = true <->
  exists a, p_actors params = Some a /\ a <> "" /\
            forall x, x ∈ m_actors movie -> ~ Py.substring_of (lower a) (lower x).
Proof.
  destruct (given (p_actors params)) as [a|] eqn:E.
  - apply given_Some in E as [E Hne].
    rewrite negb_true_iff, any_false. split.
    + intros H. exists a. repeat split; auto.
      intros x Hx Hsub. apply contains_iff in Hsub.
      rewrite (H x Hx) in Hsub. discriminate.
    + intros (a' & Ha & _ & H) x Hx. rewrite E in Ha. injection Ha as <-.
      apply not_true_iff_false. rewrite contains_iff. apply H, Hx.
  - split; [discriminate|]. intros (a & Ha & Hne & _).
    assert (given (p_actors params) = Some a) by (apply given_Some; auto).
    congruence.
Qed.

(** C2. [matches] returns false exactly when a supplied field of the query
    fails its comparison: the media type is set and differs from the
    record's; or a genre is supplied and no genre of the record equals it
    after lower-casing; or an actor name is supplied and no actor of the
    record contains it, after lower-casing, as a substring. With no field
    supplied it returns true. A field is supplied when it holds a non-empty
    text (for the media type: when it is set). *)
Theorem C2_matches_excludes (movie : MovieResponse) (params : MovieSearchParams) :
  (matches lower movie params = false <->
     (exists t, p_type params = Some t /\ m_type movie <> t)
     \/ (exists g, p_genre params = Some g /\ g <> "" /\
                   forall x, x ∈ m_genres movie -> lower x <> lower g)
     \/ (exists a, p_actors params = Some a /\ a <> "" /\
                   forall x, x ∈ m_actors movie ->
                             ~ Py.substring_of (lower a) (lower x)))
  /\ (p_type params = None -> Py.truthy (p_genre params) = false ->
      Py.truthy (p_actors params) = false -> matches lower movie params = true).
Proof.
  split.
  - rewrite <- type_excludes, <- genre_excludes, <- actors_excludes.
    unfold matches.
    destruct (match p_type params with
              | Some t => negb (bool_decide (m_type movie = t))
              | None => false
              end);
      destruct (match given (p_genre params) with
                | Some g => negb (Py.any _ (m_genres movie))
                | None => false
                end);
      destruct (match given (p_actors params) with
                | Some a => negb (Py.any _ (m_actors movie))
                | None => false
                end); intuition congruence.
  - intros Ht Hg Ha. unfold matches.
    rewrite Ht. apply given_None in Hg, Ha. rewrite Hg, Ha. reflexivity.
Qed.

End MatchFilter.

(** C2 on the record and query of the match test, with every field of the
    query left out. *)
Lemma C2_matches_excludes_witness :
  matches Py.ascii_lower
    {| m_id := "1"; m_title := "Test Movie"; m_year := Some 2020;
       m_type := Movie; m_genres := ["Action"];
       m_actors := ["Alice Smith"; "Bob Jones"]; m_director := None;
       m_runtime := None; m_plot := None; m_poster_url := None;
       m_ratings := []; m_source := TMDB |}
    (Fx.params (Some "anything") None None (Some "")) = true.
Proof.
  apply (proj2 (C2_matches_excludes Py.ascii_lower _ _)); reflexivity.
Defined.

(** The match tests of the repository. *)
Lemma matches_test_all_fields :
  matches Py.ascii_lower
    {| m_id := "1"; m_title := "Test Movie"; m_year := Some 2020;
       m_type := Movie; m_genres := ["Action"];
       m_actors := ["Alice Smith"; "Bob Jones"]; m_director := None;
       m_runtime := None; m_plot := None; m_poster_url := None;
       m_ratings := []; m_source := TMDB |}
    (Fx.params None (Some "Alice") (Some Movie) (Some "Action")) = true.
Proof. reflexivity. Qed.

Lemma matches_test_type_mismatch :
  matches Py.ascii_lower
    {| m_id := "2"; m_title := "Test"; m_year := Some 2021;
       m_type := Series; m_genres := ["Drama"]; m_actors := [];
       m_director := None; m_runtime := None; m_plot := None;
       m_poster_url := None; m_ratings := []; m_source := TMDB |}
    (Fx.params None None (Some Movie) None) = false.
Proof. reflexivity. Qed.

(** ** The taxonomy cache *)

Section TaxonomyCache.

Lemma int_keys_dump (mapping : list (Z * string)) :
  int_keys (map (fun kv => (Py.str (fst kv), snd kv)) mapping) = Some mapping.
Proof.
  induction mapping as [|[k v] r IH]; simpl; [reflexivity|].
  rewrite int_str, IH. reflexivity.
Qed.

Lemma redis_get_run key w :
  redis_get key w
  = (Ok (match cache w !! key with
         | Some e => if alive (now w) e then Some (ce_value e) else None
         | None => None
         end), w).
Proof. reflexivity. Qed.

(** A fetch that finds the taxonomy in the cache: no request is made and the
    world is left as it is. *)
Lemma fetch_genres_hit up is_series w mapping :
  NoDup mapping.*1 ->
  cache w !! genres_key is_series
  = Some {| ce_value := dump_genres mapping; ce_expires := None |} ->
  fetch_genres up is_series w = (Ok mapping, w).
Proof.
  intros Hnd Hc. unfold fetch_genres. fold (genres_key is_series).
  erewrite bind_run; [|rewrite redis_get_run, Hc; reflexivity].
  cbn. rewrite int_keys_dump, dict_of_pairs_id by exact Hnd. reflexivity.
Qed.

(** A fetch that misses the cache and succeeds: one taxonomy request, and
    the mapping is written back without expiry. *)
Lemma fetch_genres_miss up is_series w mapping w1 :
  redis_get (genres_key is_series) w = (Ok None, w) ->
  fetch_genres up is_series w = (Ok mapping, w1) ->
  exists status body,
    up (GenreList (endpoint_of is_series)) = Resp status (Some body) /\
    is_success status = true /\
    mapping = Py.dict_of_pairs (b_genres body) /\
    w1 = {| cache := <[genres_key is_series :=
                         {| ce_value := dump_genres mapping;
                            ce_expires := None |}]> (cache w);
            now := now w;
            log := log w ++ [GenreList (endpoint_of is_series)] |}.
Proof.
  intros Hmiss H. unfold fetch_genres in H. fold (genres_key is_series) in H.
  rewrite (bind_run _ _ _ _ _ Hmiss) in H.
  apply bind_Ok in H as ([status body] & wa & Hget & H).
  apply bind_Ok in H as ([] & wb & Hst & H).
  apply bind_Ok in H as (b & wc & Hjs & H).
  apply bind_Ok in H as ([] & wd & Hset & H).
  apply ret_Ok in H as [<- <-].
  unfold client_get in Hget.
  destruct (up (GenreList (endpoint_of is_series))) as [|st bd]; [discriminate|].
  injection Hget as -> -> <-.
  unfold raise_for_status in Hst. cbn [fst] in Hst.
  destruct (is_success status) eqn:Es; [|discriminate].
  apply ret_Ok in Hst as [_ <-].
  unfold json in Hjs. cbn [snd] in Hjs. destruct body as [body|]; [|discriminate].
  apply ret_Ok in Hjs as [<- <-].
  unfold redis_set in Hset. injection Hset as <-.
  exists status, body. repeat split; auto.
Qed.

(** C9. After a taxonomy fetch that missed the cache and returned a mapping,
    the mapping is stored under the key of the media type without expiry, and
    one taxonomy request was made. In every later world that still holds this
    entry, at whatever instant and whatever the upstream would reply, a
    taxonomy fetch for the same media type returns the same mapping and leaves
    the world, its request log included, unchanged. *)
Theorem C9_taxonomy_cache_hit up is_series w mapping w1 :
  redis_get (genres_key is_series) w = (Ok None, w) ->
  fetch_genres up is_series w = (Ok mapping, w1) ->
  cache w1 !! genres_key is_series
  = Some {| ce_value := dump_genres mapping; ce_expires := None |}
  /\ log w1 = log w ++ [GenreList (endpoint_of is_series)]
  /\ forall up' w2,
       cache w2 !! genres_key is_series = cache w1 !! genres_key is_series ->
       fetch_genres up' is_series w2 = (Ok mapping, w2).
Proof.
  intros Hmiss H.
  destruct (fetch_genres_miss _ _ _ _ _ Hmiss H)
    as (status & body & _ & _ & Hm & ->).
  cbn [cache log]. rewrite lookup_insert_eq. repeat split.
  intros up' w2 Hc. apply fetch_genres_hit; [|exact Hc].
  rewrite Hm. apply dict_of_pairs_NoDup.
Qed.

End TaxonomyCache.

(** C9 on the empty cache with the taxonomy of the cache-miss test. *)
Lemma C9_taxonomy_cache_hit_witness :
  exists mapping w1,
    fetch_genres Fx.up_taxonomy false Fx.world0 = (Ok mapping, w1)
    /\ cache w1 !! genres_key false
        = Some {| ce_value := dump_genres mapping; ce_expires := None |}
    /\ log w1 = log Fx.world0 ++ [GenreList (endpoint_of false)]
    /\ forall up' w2,
         cache w2 !! genres_key false = cache w1 !! genres_key false ->
         fetch_genres up' false w2 = (Ok mapping, w2).
Proof.
  eexists _, _. split; [vm_compute; reflexivity|].
  apply (C9_taxonomy_cache_hit Fx.up_taxonomy false Fx.world0);
    vm_compute; reflexivity.
Defined.

(** The cache tests of the repository: a miss stores the string keys, and a
    hit reads them back as integers without any request. *)
Lemma fetch_genres_test_miss :
  fetch_genres Fx.up_taxonomy false Fx.world0
  = (Ok [(1, "Action")],
     {| cache := {[ "genres:movie" :=
                      {| ce_value := DGenres [("1", "Action")];
                         ce_expires := None |} ]};
        now := 0;
        log := [GenreList EpMovie] |}).
Proof. reflexivity. Qed.

Lemma fetch_genres_test_hit :
  fetch_genres Fx.up_down false
    {| cache := {[ "genres:movie" :=
                     {| ce_value := DGenres [("10", "Horror"); ("20", "Comedy")];
                        ce_expires := None |} ]};
       now := 5;
       log := [] |}
  = (Ok [(10, "Horror"); (20, "Comedy")],
     {| cache := {[ "genres:movie" :=
                      {| ce_value := DGenres [("10", "Horror"); ("20", "Comedy")];
                         ce_expires := None |} ]};
        now := 5;
        log := [] |}).
Proof. reflexivity. Qed.

(** ** The popular fallback *)

Section PopularFallback.

Variable up : Upstream.

(** The fallback never returns more than 20 records. *)
Lemma popular_fallback_at_most_20 params w out w' :
  _get_popular_fallback up params w = (Ok out, w') -> (length out <= 20)%nat.
Proof.
  unfold _get_popular_fallback. intros H. inv_run H. subst out.
  rewrite length_take. lia.
Qed.

(** C3. Given the two popularity lists, the two taxonomies and the records
    mapped from the movie items and from the series items, the fallback
    returns at most 20 records: with an empty title in the query, the first
    20 of the records sorted by ascending title (code points compared in
    order, equal titles kept in source order); with a title, the first 20 of
    the movie records followed by the series records, unsorted. *)
Theorem C3_popular_fallback params w movie_pop w1 tv_pop w2 gm w3 gt w4
    rm w5 rt w6 :
  get_popular up false w = (Ok movie_pop, w1) ->
  get_popular up true w1 = (Ok tv_pop, w2) ->
  fetch_genres up false w2 = (Ok gm, w3) ->
  fetch_genres up true w3 = (Ok gt, w4) ->
  gather (fun i => map_to_movie up i EpMovie gm params) movie_pop w4 = (Ok rm, w5) ->
  gather (fun i => map_to_movie up i EpTv gt params) tv_pop w5 = (Ok rt, w6) ->
  exists out,
    _get_popular_fallback up params w = (Ok out, w6)
    /\ (length out <= 20)%nat
    /\ (Py.truthy (p_title params) = false ->
        exists sorted,
          out = take 20 sorted
          /\ sorted = Py.sort_by m_title (rm ++ rt)
          /\ StronglySorted (Py.key_le m_title) sorted
          /\ sorted ≡ₚ rm ++ rt
          /\ forall k,
               List.filter (fun m => String.eqb (m_title m) k) sorted
               = List.filter (fun m => String.eqb (m_title m) k) (rm ++ rt))
    /\ (Py.truthy (p_title params) = true -> out = take 20 (rm ++ rt)).
Proof.
  intros Hmp Htp Hgm Hgt Hrm Hrt.
  assert (Hrun : _get_popular_fallback up params w
                 = (Ok (take 20 (if negb (Py.truthy (p_title params))
                                 then Py.sort_by m_title (rm ++ rt)
                                 else rm ++ rt)), w6)).
  { pose (genres_map := fun t => match t with EpMovie => gm | EpTv => gt end).
    assert (Hg : gather (fun it => map_to_movie up (fst it) (snd it)
                                     (genres_map (snd it)) params)
                   (map (fun i => (i, EpMovie)) movie_pop
                    ++ map (fun i => (i, EpTv)) tv_pop) w4
                 = (Ok (rm ++ rt), w6))
      by (eapply gather_app; rewrite gather_map; eassumption).
    unfold _get_popular_fallback.
    rewrite (bind_run _ _ _ _ _ Hmp), (bind_run _ _ _ _ _ Htp),
      (bind_run _ _ _ _ _ Hgm), (bind_run _ _ _ _ _ Hgt).
    fold genres_map. rewrite (bind_run _ _ _ _ _ Hg). reflexivity. }
  eexists. split; [exact Hrun|]. split; [rewrite length_take; lia|]. split.
  - intros ->. cbn [negb]. eexists. split; [reflexivity|].
    split; [reflexivity|]. split; [apply sort_by_strongly_sorted|].
    split; [apply sort_by_perm | intros k; apply sort_by_stable].
  - intros ->. reflexivity.
Qed.

End PopularFallback.

(** C3 on one popular movie titled [Zulu] and one popular series titled
    [Alpha], with an empty query. *)
Lemma C3_popular_fallback_witness :
  exists out w6,
    _get_popular_fallback Fx.up_popular (Fx.params None None None None) Fx.world0
    = (Ok out, w6)
    /\ map m_title out = ["Alpha"; "Zulu"].
Proof.
  edestruct (C3_popular_fallback Fx.up_popular (Fx.params None None None None)
               Fx.world0) as (out & Hrun & _ & Hsorted & _);
    [vm_compute; reflexivity .. |].
  exists out. eexists. split; [exact Hrun|].
  destruct (Hsorted eq_refl) as (sorted & -> & -> & _). reflexivity.
Defined.

(** The fallback test of the repository orders [Title100] before
    [Title200]; with a title in the query the source order is kept. *)
Lemma popular_fallback_source_order :
  option_map (map m_title)
    (match fst (_get_popular_fallback Fx.up_popular
                  (Fx.params (Some "x") None None None) Fx.world0) with
     | Ok out => Some out
     | Raise _ => None
     end) = Some ["Zulu"; "Alpha"].
Proof. vm_compute. reflexivity. Qed.

(** ** The router *)

Section Router.

Variable up : Upstream.
Variable lower : string -> string.

Lemma endpoint_of_tv ep : endpoint_of (bool_decide (ep = EpTv)) = ep.
Proof. destruct ep; reflexivity. Qed.

Lemma get_search_results_Ok title is_series found w w' :
  get_search_results up title is_series w = (Ok found, w') ->
  found = (search_hits up title (endpoint_of is_series), endpoint_of is_series)
  /\ w' = {| cache := cache w; now := now w;
             log := log w ++ [Search (endpoint_of is_series) title] |}.
Proof.
  unfold get_search_results, search_hits. intros H.
  apply bind_Ok in H as ([status body] & wa & Hget & H).
  apply bind_Ok in H as ([] & wb & Hst & H).
  apply bind_Ok in H as (b & wc & Hjs & H).
  apply ret_Ok in H as [<- <-].
  unfold client_get in Hget.
  destruct (up (Search (endpoint_of is_series) title)) as [|st bd]; [discriminate|].
  injection Hget as -> -> <-.
  unfold raise_for_status in Hst. cbn [fst] in Hst.
  destruct (is_success status); [|discriminate].
  apply ret_Ok in Hst as [_ <-].
  unfold json in Hjs. cbn [snd] in Hjs. destruct body as [body|]; [|discriminate].
  apply ret_Ok in Hjs as [<- <-]. auto.
Qed.

Lemma title_only_loop_Ok params endpoints movies w rs w' :
  title_only_loop up params endpoints movies w = (Ok rs, w') ->
  exists mapped,
    rs = movies ++ mapped /\
    Forall2 (mapped_from up params)
      (concat (map (search_hits up (p_title params)) endpoints)) mapped.
Proof.
  revert movies w. induction endpoints as [|ep rest IH]; intros movies w H.
  - apply ret_Ok in H as [<- _]. exists []. rewrite app_nil_r. split; constructor.
  - cbn [title_only_loop] in H.
    apply bind_Ok in H as (found & wa & Hs & H).
    apply bind_Ok in H as (genres & wb & Hg & H).
    apply bind_Ok in H as (mapped & wc & Hm & H).
    apply get_search_results_Ok in Hs as [-> _]. cbn [fst snd] in Hm.
    rewrite endpoint_of_tv in Hm.
    destruct (IH _ _ H) as (more & -> & Hmore).
    exists (mapped ++ more). rewrite app_assoc. split; [reflexivity|].
    cbn [map concat]. apply Forall2_app; [|exact Hmore].
    eapply Forall2_impl; [eapply gather_run, Hm|].
    intros item r (w1 & w2 & Hr). exists ep, genres, w1, w2. exact Hr.
Qed.

(** C1. A query with a title: when genre, actors and media type are all
    left out, the router takes the title-only branch, whose result holds, in
    order, one record for every hit of the series search and then of the
    movie search, none removed by a filter; when any of genre, actors or
    media type is present (the media type alone is enough), the router takes
    the title-with-filters branch. A text field is present when it is
    non-empty. *)
Theorem C1_router_title params :
  Py.truthy (p_title params) = true ->
  (Py.truthy (p_genre params) = false -> Py.truthy (p_actors params) = false ->
   p_type params = None ->
     strategy params = TitleOnly
     /\ search_tmdb up lower params = _search_by_title_only up params false
     /\ forall w rs w',
          search_tmdb up lower params w = (Ok rs, w') ->
          Forall2 (mapped_from up params)
            (search_hits up (p_title params) EpTv
             ++ search_hits up (p_title params) EpMovie) rs)
  /\ (Py.truthy (p_genre params) = true \/ Py.truthy (p_actors params) = true
       \/ is_Some (p_type params) ->
     strategy params = TitleWithFilters
     /\ search_tmdb up lower params
        = _search_by_title_with_filters up lower params
            (bool_decide (p_type params = Some Series))).
Proof.
  intros Ht. split.
  - intros Hg Ha Hty.
    assert (Hs : strategy params = TitleOnly).
    { unfold strategy. rewrite Ht, Hg, Ha, Hty. reflexivity. }
    assert (Hrun : search_tmdb up lower params
                   = _search_by_title_only up params false).
    { unfold search_tmdb. rewrite Hs, Hty. reflexivity. }
    repeat split; [exact Hs | exact Hrun |].
    intros w rs w' H. rewrite Hrun in H. unfold _search_by_title_only in H.
    rewrite Hty in H. apply title_only_loop_Ok in H as (mapped & -> & Hm).
    cbn [map concat] in Hm. rewrite app_nil_r in Hm. exact Hm.
  - intros Hf.
    assert (Hs : strategy params = TitleWithFilters).
    { unfold strategy. rewrite Ht.
      destruct Hf as [-> | [-> | Hty]].
      - reflexivity.
      - rewrite orb_true_r. reflexivity.
      - rewrite (bool_decide_eq_true_2 _ Hty), orb_true_r. reflexivity. }
    split; [exact Hs|]. unfold search_tmdb. rewrite Hs. reflexivity.
Qed.

(** A query whose title is the empty text has no title for the router. *)
Lemma empty_title_is_no_title :
  strategy (Fx.params (Some "") None None None) = PopularFallback
  /\ strategy (Fx.params (Some "") None None (Some "Drama")) = FiltersOnly.
Proof. split; reflexivity. Qed.

End Router.

(** C1 on the query of the router test, which has a title only, and on the
    same query with a media type added. *)
Lemma C1_router_title_witness :
  (strategy (Fx.params (Some "Just A Title") None None None) = TitleOnly
   /\ exists rs w',
        search_tmdb Fx.up_search Py.ascii_lower
          (Fx.params (Some "Just A Title") None None None) Fx.world0
        = (Ok rs, w')
        /\ map m_title rs = ["Bar (series)"; "Bar"])
  /\ strategy (Fx.params (Some "Just A Title") None (Some Movie) None)
     = TitleWithFilters.
Proof.
  split.
  - destruct (C1_router_title Fx.up_search Py.ascii_lower
                (Fx.params (Some "Just A Title") None None None) eq_refl)
      as [H1 _].
    destruct (H1 eq_refl eq_refl eq_refl) as (Hs & Hrun & _).
    split; [exact Hs|].
    eexists _, _. split; [rewrite Hrun; vm_compute; reflexivity | reflexivity].
  - destruct (C1_router_title Fx.up_search Py.ascii_lower
                (Fx.params (Some "Just A Title") None (Some Movie) None) eq_refl)
      as [_ H2].
    apply H2. right. right. eexists. reflexivity.
Defined.

(** ** Propagation of upstream failures *)

Section Tracking.

Variable up : Upstream.
Variable lower : string -> string.

Lemma tracked_ret {A} (a : A) : tracked up (ret a).
Proof.
  intros w res w' [= <- <-]. exists []. rewrite app_nil_r. split; [reflexivity|].
  constructor.
Qed.

Lemma tracked_raise {A} e : tracked up (@raise A e).
Proof.
  intros w res w' [= <- <-]. exists []. rewrite app_nil_r. split; [reflexivity|].
  discriminate.
Qed.

Lemma tracked_bind {A B} (m : M A) (k : A -> M B) :
  tracked up m -> (forall a, tracked up (k a)) -> tracked up (bind m k).
Proof.
  intros Hm Hk w res w' H. unfold bind in H.
  destruct (m w) as [[a|e] w1] eqn:Em.
  - destruct (Hm _ _ _ Em) as (i1 & Hl1 & Hp1).
    destruct (Hk a _ _ _ H) as (i2 & Hl2 & Hp2).
    exists (i1 ++ i2). rewrite Hl2, Hl1, app_assoc. split; [reflexivity|].
    intros b ->. apply Forall_app. split; [eapply Hp1 | eapply Hp2]; reflexivity.
  - injection H as <- <-. destruct (Hm _ _ _ Em) as (i1 & Hl1 & _).
    exists i1. split; [exact Hl1 | discriminate].
Qed.

(** A call followed by [raise_for_status]. *)
Lemma tracked_checked_call {A} r (k : Z * option Body -> M A) :
  (forall resp, tracked up (k resp)) ->
  tracked up (resp <- client_get up r ;; raise_for_status resp ;; k resp).
Proof.
  intros Hk w res w' H. unfold bind, client_get, raise_for_status in H.
  destruct (up r) as [|status body] eqn:Er.
  - injection H as <- <-. exists [r]. split; [reflexivity | discriminate].
  - cbn [fst] in H. destruct (is_success status) eqn:Es.
    + unfold ret in H. destruct (Hk _ _ _ _ H) as (i & Hl & Hp).
      exists (r :: i). cbn [log] in Hl. rewrite Hl, <- app_assoc.
      split; [reflexivity|]. intros a ->. constructor; [|eapply Hp; reflexivity].
      unfold passes. rewrite Er. intros _. exact Es.
    + unfold raise in H. injection H as <- <-. exists [r].
      split; [reflexivity | discriminate].
Qed.

(** A call whose status is not checked. *)
Lemma tracked_unchecked_call {A} r (k : Z * option Body -> M A) :
  checked r = false ->
  (forall resp, tracked up (k resp)) ->
  tracked up (resp <- client_get up r ;; k resp).
Proof.
  intros Hc Hk w res w' H. unfold bind, client_get in H.
  destruct (up r) as [|status body] eqn:Er.
  - injection H as <- <-. exists [r]. split; [reflexivity | discriminate].
  - destruct (Hk _ _ _ _ H) as (i & Hl & Hp).
    exists (r :: i). cbn [log] in Hl. rewrite Hl, <- app_assoc.
    split; [reflexivity|]. intros a ->. constructor; [|eapply Hp; reflexivity].
    unfold passes. rewrite Er, Hc. discriminate.
Qed.

Lemma tracked_redis_get key : tracked up (redis_get key).
Proof.
  intros w res w' [= <- <-]. exists []. rewrite app_nil_r. split; [reflexivity|].
  constructor.
Qed.

Lemma tracked_redis_set key doc ex : tracked up (redis_set key doc ex).
Proof.
  intros w res w' [= <- <-]. exists []. cbn [log]. rewrite app_nil_r.
  split; [reflexivity|]. constructor.
Qed.

Lemma tracked_json resp : tracked up (json resp).
Proof. unfold json. destruct (snd resp); [apply tracked_ret | apply tracked_raise]. Qed.

Lemma tracked_int_or_raise s : tracked up (int_or_raise s).
Proof.
  unfold int_or_raise. destruct (Py.int s); [apply tracked_ret | apply tracked_raise].
Qed.

Lemma tracked_gather {A B} (f : A -> M B) l :
  (forall x, tracked up (f x)) -> tracked up (gather f l).
Proof.
  intros Hf. induction l as [|x r IH]; cbn [gather].
  - apply tracked_ret.
  - apply tracked_bind; [apply Hf|]. intros y.
    apply tracked_bind; [apply IH|]. intros ys. apply tracked_ret.
Qed.

End Tracking.

(** Decomposes a goal [tracked up m] along the structure of [m]. *)
Ltac track :=
  repeat
    (first
       [ apply tracked_ret
       | apply tracked_raise
       | apply tracked_redis_get
       | apply tracked_redis_set
       | apply tracked_json
       | apply tracked_int_or_raise
       | apply tracked_checked_call; intros ?
       | apply tracked_unchecked_call; [reflexivity | intros ?]
       | apply tracked_gather; intros ?
       | apply tracked_bind; [|intros ?]
       | match goal with
         | |- tracked _ (match ?x with _ => _ end) => destruct x
         | |- tracked _ (if ?b then _ else _) => destruct b
         | |- tracked _ (let '(_, _) := ?x in _) => destruct x
         end ]).

Section TrackedProgram.

Variable up : Upstream.
Variable lower : string -> string.

Lemma tracked_fetch_genres is_series : tracked up (fetch_genres up is_series).
Proof. unfold fetch_genres. track. Qed.

Lemma tracked_get_search_results title is_series :
  tracked up (get_search_results up title is_series).
Proof. unfold get_search_results. track. Qed.

Lemma tracked_search_person name : tracked up (search_person up name).
Proof. unfold search_person. track. Qed.

Lemma tracked_with_genres_of is_series genre :
  tracked up (with_genres_of up lower is_series genre).
Proof. unfold with_genres_of. track. Qed.

Lemma tracked_discover_by_filters genre actors is_series :
  tracked up (discover_by_filters up lower genre actors is_series).
Proof.
  unfold discover_by_filters, _discover_tv_by_filters, _discover_movie_by_filters.
  destruct is_series; track; apply tracked_with_genres_of.
Qed.

Lemma tracked_get_popular is_series : tracked up (get_popular up is_series).
Proof. unfold get_popular. track. Qed.

Lemma tracked_map_to_movie item ep genres params :
  tracked up (map_to_movie up item ep genres params).
Proof.
  unfold map_to_movie, catalog_year, _fetch_credits, _get_imdb_id, enrichment,
    _fetch_omdb_data, merged_year.
  track.
Qed.

Lemma tracked_title_only_loop params endpoints movies :
  tracked up (title_only_loop up params endpoints movies).
Proof.
  revert movies. induction endpoints as [|ep rest IH]; intros movies;
    cbn [title_only_loop].
  - apply tracked_ret.
  - apply tracked_bind; [apply tracked_get_search_results|]. intros found.
    apply tracked_bind; [apply tracked_fetch_genres|]. intros genres.
    apply tracked_bind; [|intros mapped; apply IH].
    apply tracked_gather. intros item. apply tracked_map_to_movie.
Qed.

Lemma tracked_search_tmdb params : tracked up (search_tmdb up lower params).
Proof.
  unfold search_tmdb. destruct (strategy params).
  - apply tracked_title_only_loop.
  - unfold _search_by_title_with_filters.
    apply tracked_bind.
    + destruct (_ && _);
        [apply tracked_discover_by_filters | apply tracked_get_search_results].
    + intros found. apply tracked_bind; [apply tracked_fetch_genres|]. intros g.
      apply tracked_bind; [|intros m; apply tracked_ret].
      apply tracked_gather. intros item. apply tracked_map_to_movie.
  - unfold _search_by_filters_only.
    apply tracked_bind; [apply tracked_discover_by_filters|].
    intros found. apply tracked_bind; [apply tracked_fetch_genres|]. intros g.
    apply tracked_bind; [|intros m; apply tracked_ret].
    apply tracked_gather. intros item. apply tracked_map_to_movie.
  - unfold _get_popular_fallback.
    apply tracked_bind; [apply tracked_get_popular|]. intros mp.
    apply tracked_bind; [apply tracked_get_popular|]. intros tp.
    apply tracked_bind; [apply tracked_fetch_genres|]. intros gm.
    apply tracked_bind; [apply tracked_fetch_genres|]. intros gt.
    apply tracked_bind; [|intros m; apply tracked_ret].
    apply tracked_gather. intros item. apply tracked_map_to_movie.
Qed.

End TrackedProgram.

Section UpstreamFailures.

Variable up : Upstream.
Variable lower : string -> string.

(** A reply of the detail call with a status other than 200 is read as the
    absence of a cross-reference ID. *)
Lemma _get_imdb_id_not_200 ep tmdb_id status body w :
  up (Detail ep tmdb_id) = Resp status body ->
  status <> 200 ->
  _get_imdb_id up ep tmdb_id w
  = (Ok None, {| cache := cache w; now := now w;
                 log := log w ++ [Detail ep tmdb_id] |}).
Proof.
  intros Hr Hst. unfold _get_imdb_id, bind, client_get. rewrite Hr. cbn [fst].
  destruct (Z.eqb_spec status 200); [contradiction | reflexivity].
Qed.

(** C6, as amended. The requests a search issues are appended to the log.
    If any of them met a network error, or is a call to the catalog other
    than the detail call and was answered with a status outside 2xx, the
    route answers 502 and returns no record. A reply of the detail call with
    a status other than 200 is not fatal: the cross-reference ID is taken as
    absent. *)
Theorem C6_upstream_failures :
  (forall params w reply w',
     search_movies up lower params w = (reply, w') ->
     exists issued,
       log w' = log w ++ issued /\
       forall r,
         r ∈ issued ->
         up r = NetErr
         \/ (checked r = true /\
             exists status body, up r = Resp status body
                                 /\ is_success status = false) ->
         exists e, reply = Http502 e)
  /\ (forall ep tmdb_id status body w,
        up (Detail ep tmdb_id) = Resp status body ->
        status <> 200 ->
        _get_imdb_id up ep tmdb_id w
        = (Ok None, {| cache := cache w; now := now w;
                       log := log w ++ [Detail ep tmdb_id] |})).
Proof.
  split; [|apply _get_imdb_id_not_200].
  intros params w reply w' H. unfold search_movies in H.
  destruct (search_tmdb up lower params w) as [[movies|e] w1] eqn:Es;
    injection H as <- <-;
    destruct (tracked_search_tmdb up lower params _ _ _ Es) as (issued & Hl & Hp);
    exists issued; (split; [exact Hl|]); intros r Hr Hfail; [|eauto].
  exfalso. specialize (Hp movies eq_refl).
  rewrite Forall_forall in Hp. specialize (Hp r Hr). unfold passes in Hp.
  destruct Hfail as [Hn | (Hc & status & body & Hresp & Hs)].
  - rewrite Hn in Hp. exact Hp.
  - rewrite Hresp in Hp. specialize (Hp Hc). congruence.
Qed.

End UpstreamFailures.

(** C6 when upstream is down: the first request is the series search, it
    meets a network error, and the route answers 502. *)
Lemma C6_upstream_failures_witness :
  exists e,
    fst (search_movies Fx.up_down Py.ascii_lower
           (Fx.params (Some "Bar") None None None) Fx.world0) = Http502 e.
Proof.
  destruct (search_movies Fx.up_down Py.ascii_lower
              (Fx.params (Some "Bar") None None None) Fx.world0)
    as [reply w'] eqn:E.
  destruct (proj1 (C6_upstream_failures Fx.up_down Py.ascii_lower) _ _ _ _ E)
    as (issued & Hl & Hfail).
  assert (Hi : issued = [Search EpTv (Some "Bar")]).
  { assert (Hw : log w' = [Search EpTv (Some "Bar")])
      by (injection E as _ <-; reflexivity).
    rewrite Hw in Hl. cbn in Hl. congruence. }
  apply (Hfail (Search EpTv (Some "Bar"))).
  - rewrite Hi. left.
  - left. reflexivity.
Defined.

(** C6 as stated fails: the detail call of the one hit is answered with
    status 500, and the route answers 200 with a record of provenance TMDB
    whose id is the native ID. *)
Lemma C6_counterexample :
  exists r w',
    search_movies Fx.up_detail_down Py.ascii_lower
      (Fx.params (Some "Bar") None (Some Movie) None) Fx.world0
    = (Http200 [r], w')
    /\ Detail EpMovie (Some 2) ∈ log w'
    /\ Fx.up_detail_down (Detail EpMovie (Some 2)) = Resp 500 None
    /\ is_success 500 = false
    /\ m_source r = TMDB /\ m_id r = "2".
Proof.
  eexists _, _. split; [vm_compute; reflexivity|].
  split; [|repeat split].
  cbn [log]. apply list_elem_of_In. cbn. auto.
Qed.

(** ** Filter discovery *)

Section WorldBlind.

Variable up : Upstream.

Lemma world_blind_ret {A} (a : A) : world_blind (ret a).
Proof. intros w w'. reflexivity. Qed.

Lemma world_blind_raise {A} e : world_blind (@raise A e).
Proof. intros w w'. reflexivity. Qed.

Lemma world_blind_bind {A B} (m : M A) (k : A -> M B) :
  world_blind m -> (forall a, world_blind (k a)) -> world_blind (bind m k).
Proof.
  intros Hm Hk w w'. unfold bind. specialize (Hm w w').
  destruct (m w) as [[a|e] w1], (m w') as [[a'|e'] w1']; cbn [fst] in *;
    try congruence.
  injection Hm as <-. apply Hk.
Qed.

Lemma world_blind_client_get r : world_blind (client_get up r).
Proof. intros w w'. unfold client_get. destruct (up r); reflexivity. Qed.

Lemma world_blind_raise_for_status resp : world_blind (raise_for_status resp).
Proof.
  unfold raise_for_status.
  destruct (is_success _); [apply world_blind_ret | apply world_blind_raise].
Qed.

Lemma world_blind_json resp : world_blind (json resp).
Proof.
  unfold json. destruct (snd resp); [apply world_blind_ret | apply world_blind_raise].
Qed.

Lemma world_blind_search_person name : world_blind (search_person up name).
Proof.
  unfold search_person.
  apply world_blind_bind; [apply world_blind_client_get|]. intros p.
  apply world_blind_bind; [apply world_blind_raise_for_status|]. intros _.
  apply world_blind_bind; [apply world_blind_json|]. intros b.
  apply world_blind_ret.
Qed.

(** One call, checked and decoded. *)
Lemma world_blind_call {A} r (f : Body -> A) :
  world_blind (resp <- client_get up r ;; raise_for_status resp ;;
               body <- json resp ;; ret (f body)).
Proof.
  apply world_blind_bind; [apply world_blind_client_get|]. intros p.
  apply world_blind_bind; [apply world_blind_raise_for_status|]. intros _.
  apply world_blind_bind; [apply world_blind_json|]. intros b.
  apply world_blind_ret.
Qed.

(** The outcome of a taxonomy fetch depends on the cache and the instant,
    not on the log. *)
Lemma fetch_genres_same_cache is_series w w2 :
  cache w2 = cache w -> now w2 = now w ->
  fst (fetch_genres up is_series w2) = fst (fetch_genres up is_series w).
Proof.
  intros Hc Hn. unfold fetch_genres, bind, redis_get. rewrite Hc, Hn.
  destruct (match cache w !! _ with Some _ => _ | None => _ end) as [[m|i]|].
  - destruct (int_keys m); reflexivity.
  - reflexivity.
  - unfold client_get. destruct (up (GenreList (endpoint_of is_series)))
      as [|status [body|]]; cbn; [reflexivity| |];
      unfold raise_for_status; cbn [fst]; destruct (is_success status);
      reflexivity.
Qed.

End WorldBlind.

Section CacheFree.

Variable up : Upstream.

Lemma bind_fst_same {A B} (m : M A) (k1 k2 : A -> M B) w :
  (forall a w1, m w = (Ok a, w1) -> fst (k1 a w1) = fst (k2 a w1)) ->
  fst (bind m k1 w) = fst (bind m k2 w).
Proof.
  intros H. unfold bind. destruct (m w) as [[a|e] w1]; [|reflexivity].
  apply H. reflexivity.
Qed.

Lemma cache_free_ret {A} (a : A) : cache_free (ret a).
Proof. intros w res w' [= <- <-]. auto. Qed.

Lemma cache_free_raise {A} e : cache_free (@raise A e).
Proof. intros w res w' [= <- <-]. auto. Qed.

Lemma cache_free_bind {A B} (m : M A) (k : A -> M B) :
  cache_free m -> (forall a, cache_free (k a)) -> cache_free (bind m k).
Proof.
  intros Hm Hk w res w' H. unfold bind in H.
  destruct (m w) as [[a|e] w1] eqn:Em.
  - destruct (Hm _ _ _ Em) as [<- <-]. eapply Hk, H.
  - injection H as <- <-. eapply Hm, Em.
Qed.

Lemma cache_free_client_get r : cache_free (client_get up r).
Proof.
  intros w res w' H. unfold client_get in H.
  destruct (up r); injection H as <- <-; auto.
Qed.

Lemma cache_free_raise_for_status resp : cache_free (raise_for_status resp).
Proof.
  unfold raise_for_status.
  destruct (is_success _); [apply cache_free_ret | apply cache_free_raise].
Qed.

Lemma cache_free_json resp : cache_free (json resp).
Proof.
  unfold json. destruct (snd resp); [apply cache_free_ret | apply cache_free_raise].
Qed.

Lemma cache_free_search_person name : cache_free (search_person up name).
Proof.
  unfold search_person.
  apply cache_free_bind; [apply cache_free_client_get|]. intros p.
  apply cache_free_bind; [apply cache_free_raise_for_status|]. intros _.
  apply cache_free_bind; [apply cache_free_json|]. intros b.
  apply cache_free_ret.
Qed.

End CacheFree.

Section UnresolvedFilters.

Variable up : Upstream.
Variable lower : string -> string.

Lemma given_nonempty a : a <> "" -> given (Some a) = Some a.
Proof. intros H. apply given_Some. auto. Qed.

Lemma search_person_no_result a status pb w :
  up (SearchPerson a) = Resp status (Some pb) ->
  is_success status = true ->
  b_results pb = [] ->
  search_person up a w
  = (Ok None, {| cache := cache w; now := now w;
                 log := log w ++ [SearchPerson a] |}).
Proof.
  intros Hr Hs Hp. unfold search_person, bind, client_get, raise_for_status.
  rewrite Hr. cbn [fst snd]. rewrite Hs. cbn. rewrite Hp. reflexivity.
Qed.

Lemma with_genres_of_unresolved is_series g genres w w1 :
  g <> "" ->
  fetch_genres up is_series w = (Ok genres, w1) ->
  genre_id_of lower genres g = None ->
  with_genres_of up lower is_series (Some g) w = (Ok None, w1).
Proof.
  intros Hg Hf Hid. unfold with_genres_of. rewrite (given_nonempty _ Hg).
  rewrite (bind_run _ _ _ _ _ Hf), Hid. reflexivity.
Qed.

Lemma movie_unmatched_person genre a status pb w :
  a <> "" ->
  up (SearchPerson a) = Resp status (Some pb) ->
  is_success status = true ->
  b_results pb = [] ->
  fst (_discover_movie_by_filters up lower genre (Some a) w)
  = fst (_discover_movie_by_filters up lower genre None w).
Proof.
  intros Ha Hr Hs Hp. unfold _discover_movie_by_filters.
  rewrite (given_nonempty _ Ha). change (given None) with (@None string).
  apply bind_fst_same. intros wg w1 _.
  rewrite (bind_run _ _ _ _ _
             (bind_run _ _ _ _ _ (search_person_no_result _ _ _ w1 Hr Hs Hp))).
  rewrite (bind_run _ _ _ _ _ (eq_refl : ret None w1 = (Ok None, w1))).
  apply world_blind_call.
Qed.

Lemma tv_unmatched_person genre a status pb w :
  a <> "" ->
  up (SearchPerson a) = Resp status (Some pb) ->
  is_success status = true ->
  b_results pb = [] ->
  _discover_tv_by_filters up lower genre (Some a) w
  = (Ok ([], EpTv), {| cache := cache w; now := now w;
                       log := log w ++ [SearchPerson a] |}).
Proof.
  intros Ha Hr Hs Hp. unfold _discover_tv_by_filters.
  rewrite (given_nonempty _ Ha).
  rewrite (bind_run _ _ _ _ _ (search_person_no_result _ _ _ w Hr Hs Hp)).
  reflexivity.
Qed.

Lemma unresolved_genre g actors is_series genres w w1 :
  g <> "" ->
  fetch_genres up is_series w = (Ok genres, w1) ->
  genre_id_of lower genres g = None ->
  fst (discover_by_filters up lower (Some g) actors is_series w)
  = fst (discover_by_filters up lower None actors is_series w).
Proof.
  intros Hg Hf Hid. unfold discover_by_filters. destruct is_series.
  - unfold _discover_tv_by_filters. destruct (given actors) as [a|].
    + rewrite (given_nonempty _ Hg). change (given None) with (@None string).
      apply bind_fst_same. intros [pid|] wa Ep; [|reflexivity].
      apply bind_fst_same. intros resp wb Hget.
      apply bind_fst_same. intros [] wc Hst.
      apply bind_fst_same. intros body wd Hjs.
      destruct (cache_free_search_person up _ _ _ _ Ep) as [Hc1 Hn1].
      destruct (cache_free_client_get up _ _ _ _ Hget) as [Hc2 Hn2].
      destruct (cache_free_raise_for_status _ _ _ _ Hst) as [Hc3 Hn3].
      destruct (cache_free_json _ _ _ _ Hjs) as [Hc4 Hn4].
      pose proof (fetch_genres_same_cache up true w wd) as Hsame.
      rewrite Hf in Hsame. cbn [fst] in Hsame.
      unfold bind. destruct (fetch_genres up true wd) as [[g'|e'] w3];
        cbn [fst] in Hsame.
      * assert (Hg' : Ok g' = Ok genres) by (apply Hsame; congruence).
        injection Hg' as ->. rewrite Hid. reflexivity.
      * assert (Hg' : @Raise (list (Z * string)) e' = Ok genres)
          by (apply Hsame; congruence).
        discriminate Hg'.
    + rewrite (bind_run _ _ _ _ _ (with_genres_of_unresolved _ _ _ _ _ Hg Hf Hid)).
      unfold with_genres_of at 1. change (given None) with (@None string).
      cbv iota.
      rewrite (bind_run _ _ _ _ _ (eq_refl : ret None w = (Ok None, w))).
      apply world_blind_call.
  - unfold _discover_movie_by_filters.
    rewrite (bind_run _ _ _ _ _ (with_genres_of_unresolved _ _ _ _ _ Hg Hf Hid)).
    unfold with_genres_of at 1. change (given None) with (@None string).
    cbv iota.
    rewrite (bind_run _ _ _ _ _ (eq_refl : ret None w = (Ok None, w))).
    apply world_blind_bind.
    + destruct (given actors).
      * apply world_blind_bind; [apply world_blind_search_person|].
        intros p. apply world_blind_ret.
      * apply world_blind_ret.
    + intros wc. apply world_blind_call.
Qed.

End UnresolvedFilters.

Section Discovery.

Variable up : Upstream.
Variable lower : string -> string.

(** C7, as amended. An actor name for which the person search succeeds with
    no result, or a genre name that the taxonomy does not hold, never makes
    filter discovery fail. On the movie path the outcome with the unmatched
    actor name is the outcome without it. On the series path the unmatched
    actor name ends discovery with the empty list, after the person search
    alone. On both paths the outcome with the unresolved genre name is the
    outcome without it. *)
Theorem C7_unresolved_filters :
  (forall genre a status pb w,
     a <> "" ->
     up (SearchPerson a) = Resp status (Some pb) ->
     is_success status = true ->
     b_results pb = [] ->
     fst (discover_by_filters up lower genre (Some a) false w)
     = fst (discover_by_filters up lower genre None false w))
  /\ (forall genre a status pb w,
        a <> "" ->
        up (SearchPerson a) = Resp status (Some pb) ->
        is_success status = true ->
        b_results pb = [] ->
        discover_by_filters up lower genre (Some a) true w
        = (Ok ([], EpTv), {| cache := cache w; now := now w;
                             log := log w ++ [SearchPerson a] |}))
  /\ (forall g actors is_series genres w w1,
        g <> "" ->
        fetch_genres up is_series w = (Ok genres, w1) ->
        genre_id_of lower genres g = None ->
        fst (discover_by_filters up lower (Some g) actors is_series w)
        = fst (discover_by_filters up lower None actors is_series w)).
Proof.
  split; [|split].
  - intros. eapply movie_unmatched_person; eassumption.
  - intros. eapply tv_unmatched_person; eassumption.
  - intros. eapply unresolved_genre; eassumption.
Qed.

End Discovery.

(** C7 where no person is found and the genre [Western] is not in the
    taxonomy: the movie path discovers the film, the series path with the
    actor name returns nothing, and the series path with the genre alone
    discovers the show. *)
Lemma C7_unresolved_filters_witness :
  fst (discover_by_filters Fx.up_nobody Py.ascii_lower None (Some "Nobody") false
         Fx.world0)
  = fst (discover_by_filters Fx.up_nobody Py.ascii_lower None None false Fx.world0)
  /\ fst (discover_by_filters Fx.up_nobody Py.ascii_lower (Some "Drama")
            (Some "Nobody") true Fx.world0) = Ok ([], EpTv)
  /\ fst (discover_by_filters Fx.up_nobody Py.ascii_lower (Some "Western") None true
            Fx.world0)
     = fst (discover_by_filters Fx.up_nobody Py.ascii_lower None None true Fx.world0).
Proof.
  destruct (C7_unresolved_filters Fx.up_nobody Py.ascii_lower) as (H1 & H2 & H3).
  split; [|split].
  - apply (H1 None "Nobody" 200 (Fx.results []) Fx.world0);
      [discriminate | reflexivity ..].
  - rewrite (H2 (Some "Drama") "Nobody" 200 (Fx.results []) Fx.world0);
      [reflexivity | discriminate | reflexivity ..].
  - apply (H3 "Western" None true [(5, "Drama")] Fx.world0
             (snd (fetch_genres Fx.up_nobody true Fx.world0)));
      [discriminate | vm_compute; reflexivity | reflexivity].
Defined.

(** C7 as stated fails on the series path: with an actor name that matches
    no person, discovery does not go on without the actor filter, which
    would find the show; it returns the empty list and requests nothing
    after the person search. *)
Lemma C7_counterexample :
  discover_by_filters Fx.up_nobody Py.ascii_lower None (Some "Nobody") true
    Fx.world0
  = (Ok ([], EpTv), {| cache := ∅; now := 0; log := [SearchPerson "Nobody"] |})
  /\ fst (discover_by_filters Fx.up_nobody Py.ascii_lower None None true Fx.world0)
     = Ok ([Fx.item 77 (Some "Show") None [] None], EpTv)
  /\ fst (discover_by_filters Fx.up_nobody Py.ascii_lower None (Some "Nobody") true
            Fx.world0)
     <> fst (discover_by_filters Fx.up_nobody Py.ascii_lower None None true
               Fx.world0).
Proof.
  split; [reflexivity|]. split; [reflexivity|]. vm_compute. discriminate.
Qed.

(** ** Title with filters *)

Section TitleWithFilters.

Variable up : Upstream.
Variable lower : string -> string.

(** A successful title-with-filters search: the candidates come from the
    series discovery by actor when an actor name is present and the media
    type is series, and from the title search on the one endpoint otherwise;
    every candidate is mapped, and the records that pass the match filter are
    returned in order. *)
Lemma title_with_filters_Ok params is_series w rs w' :
  _search_by_title_with_filters up lower params is_series w = (Ok rs, w') ->
  exists candidates ep w1 mapped,
    (if Py.truthy (p_actors params) && is_series
     then _discover_tv_by_filters up lower (p_genre params) (p_actors params) w
     else get_search_results up (p_title params) is_series w)
    = (Ok (candidates, ep), w1)
    /\ Forall2 (mapped_from up params) candidates mapped
    /\ rs = List.filter (fun m => matches lower m params) mapped
    /\ Forall (fun m => matches lower m params = true) rs.
Proof.
  unfold _search_by_title_with_filters. intros H.
  apply bind_Ok in H as ([candidates ep] & w1 & Hfound & H).
  apply bind_Ok in H as (genres & w2 & Hg & H).
  apply bind_Ok in H as (mapped & w3 & Hm & H).
  apply ret_Ok in H as [<- <-]. cbn [fst snd] in Hm.
  exists candidates, ep, w1, mapped. split; [|split; [|split]].
  - destruct (Py.truthy (p_actors params)), is_series; exact Hfound.
  - eapply Forall2_impl; [eapply gather_run, Hm|].
    intros item r (wa & wb & Hr). exists ep, genres, wa, wb. exact Hr.
  - reflexivity.
  - apply Forall_forall. intros m Hin.
    apply list_elem_of_In, filter_In in Hin as [_ Hin]. exact Hin.
Qed.

(** A successful series discovery by actor: the person search, then the
    series credits of the first person found, and no discovery call. With a
    genre name that the taxonomy resolves to an ID other than [0], the
    credits are filtered by membership of that ID; with an unresolved genre
    name, with the ID [0], or without a genre name they are returned as they
    are. *)
Lemma tv_actor_credits genre actors a w candidates ep w' :
  given actors = Some a ->
  _discover_tv_by_filters up lower genre actors w = (Ok (candidates, ep), w') ->
  ep = EpTv /\
  exists people w1,
    search_person up a w = (Ok people, w1) /\
    match people with
    | None => candidates = [] /\ w' = w1
    | Some person_id =>
        exists status body,
          up (TvCredits person_id) = Resp status (Some body) /\
          is_success status = true /\
          match given genre with
          | None => candidates = b_cast body
          | Some g =>
              exists genres w2,
                fetch_genres up true w2 = (Ok genres, w') /\
                match genre_id_of lower genres g with
                | Some gid =>
                    if gid =? 0 then candidates = b_cast body
                    else candidates
                         = List.filter (fun show => bool_decide (gid ∈ i_genre_ids show))
                             (b_cast body)
                | None => candidates = b_cast body
                end
          end
    end.
Proof.
  intros Ha H. unfold _discover_tv_by_filters in H. rewrite Ha in H.
  apply bind_Ok in H as (people & w1 & Hp & H).
  destruct people as [person_id|].
  - apply bind_Ok in H as ([status body] & wa & Hget & H).
    apply bind_Ok in H as ([] & wb & Hst & H).
    apply bind_Ok in H as (b & wc & Hjs & H).
    unfold client_get in Hget.
    destruct (up (TvCredits person_id)) as [|st bd] eqn:Er; [discriminate|].
    injection Hget as -> -> <-.
    unfold raise_for_status in Hst. cbn [fst] in Hst.
    destruct (is_success status) eqn:Es; [|discriminate].
    apply ret_Ok in Hst as [_ <-].
    unfold json in Hjs. cbn [snd] in Hjs.
    destruct body as [body|]; [|discriminate].
    apply ret_Ok in Hjs as [<- <-].
    destruct (given genre) as [g|].
    + apply bind_Ok in H as (genres & wd & Hg & H).
      destruct (genre_id_of lower genres g) as [gid|] eqn:Eg; cbn in H.
      * destruct (Z.eqb_spec gid 0) as [->|Hne]; cbn in H;
          apply ret_Ok in H as [[= <- <-] <-]; (split; [reflexivity|]);
          exists (Some person_id), w1; (split; [exact Hp|]);
          exists status, body; (split; [exact Er|]); (split; [exact Es|]);
          eexists genres, _; (split; [exact Hg|]); rewrite Eg.
        -- reflexivity.
        -- destruct (Z.eqb_spec gid 0); [contradiction | reflexivity].
      * apply ret_Ok in H as [[= <- <-] <-]. split; [reflexivity|].
        exists (Some person_id), w1. split; [exact Hp|].
        exists status, body. split; [exact Er|]. split; [exact Es|].
        eexists genres, _. split; [exact Hg|]. rewrite Eg. reflexivity.
    + apply ret_Ok in H as [[= <- <-] <-]. split; [reflexivity|].
      exists (Some person_id), w1. split; [exact Hp|].
      exists status, body. auto.
  - apply ret_Ok in H as [[= <- <-] <-]. split; [reflexivity|].
    exists None, w1. auto.
Qed.

End TitleWithFilters.

(** C8 at a series taxonomy that gives the genre of the query the ID [0].
    The genre name resolves, the query has an actor name and the media type
    series, and yet the candidates are both series credits of the person, the
    one outside the genre included. With the ID [18] in place of [0] the
    candidates are the credits of the genre alone, and without the actor name
    the ID [0] is passed on to the discovery call. *)
Lemma C8_genre_id_zero_not_filtered :
  strategy (Fx.params (Some "Show") (Some "Jane") (Some Series) (Some "Drama"))
  = TitleWithFilters
  /\ genre_id_of Py.ascii_lower [(0, "Drama"); (99, "Documentary")] "Drama" = Some 0
  /\ fst (discover_by_filters Fx.up_genre_zero Py.ascii_lower (Some "Drama")
            (Some "Jane") true Fx.world0)
     = Ok ([Fx.item 7 (Some "Planet") None [99] None;
            Fx.item 9 (Some "Hospital") None [0] None], EpTv)
  /\ fst (discover_by_filters Fx.up_genre_18 Py.ascii_lower (Some "Drama")
            (Some "Jane") true Fx.world0)
     = Ok ([Fx.item 9 (Some "Hospital") None [18] None], EpTv)
  /\ log (snd (discover_by_filters Fx.up_genre_zero Py.ascii_lower (Some "Drama")
                 None true Fx.world0))
     = [GenreList EpTv; Discover EpTv (Some "0") None]
  /\ Credits EpTv (Some 7)
     ∈ log (snd (search_tmdb Fx.up_genre_zero Py.ascii_lower
                   (Fx.params (Some "Show") (Some "Jane") (Some Series)
                      (Some "Drama")) Fx.world0))
  /\ Credits EpTv (Some 7)
     ∉ log (snd (search_tmdb Fx.up_genre_18 Py.ascii_lower
                   (Fx.params (Some "Show") (Some "Jane") (Some Series)
                      (Some "Drama")) Fx.world0)).
Proof.
  split; [reflexivity|]. split; [reflexivity|]. split; [reflexivity|].
  split; [reflexivity|]. split; [reflexivity|]. split.
  - apply list_elem_of_In. vm_compute. tauto.
  - intros Hin%list_elem_of_In. vm_compute in Hin.
    repeat (destruct Hin as [Hin|Hin]; [discriminate Hin|]). exact Hin.
Qed.

(** ** The popularity cache *)

Section PopularCache.

Variable up : Upstream.

Lemma get_popular_hit up' is_series w items d :
  cache w !! popular_key is_series
  = Some {| ce_value := DItems items; ce_expires := Some d |} ->
  now w < d ->
  get_popular up' is_series w = (Ok items, w).
Proof.
  intros Hc Ht. unfold get_popular. fold (popular_key is_series).
  erewrite bind_run; [|rewrite redis_get_run, Hc; reflexivity].
  unfold alive. cbn [ce_expires ce_value].
  rewrite (proj2 (Z.ltb_lt _ _) Ht). reflexivity.
Qed.

Lemma get_popular_expired is_series w items d :
  cache w !! popular_key is_series
  = Some {| ce_value := DItems items; ce_expires := Some d |} ->
  d <= now w ->
  redis_get (popular_key is_series) w = (Ok None, w).
Proof.
  intros Hc Ht. rewrite redis_get_run, Hc. unfold alive. cbn [ce_expires].
  rewrite (proj2 (Z.ltb_ge _ _) Ht). reflexivity.
Qed.

Lemma get_popular_miss is_series w :
  redis_get (popular_key is_series) w = (Ok None, w) ->
  get_popular up is_series w
  = match up (Popular (endpoint_of is_series)) with
    | NetErr =>
        (Raise RequestError,
         {| cache := cache w; now := now w;
            log := log w ++ [Popular (endpoint_of is_series)] |})
    | Resp status body =>
        if is_success status then
          match body with
          | Some b =>
              (Ok (b_results b),
               {| cache := <[popular_key is_series :=
                               {| ce_value := DItems (b_results b);
                                  ce_expires := Some (now w + CACHE_TTL_POPULAR) |}]>
                             (cache w);
                  now := now w;
                  log := log w ++ [Popular (endpoint_of is_series)] |})
          | None =>
              (Raise JSONDecodeError,
               {| cache := cache w; now := now w;
                  log := log w ++ [Popular (endpoint_of is_series)] |})
          end
        else
          (Raise (HTTPStatusError status),
           {| cache := cache w; now := now w;
              log := log w ++ [Popular (endpoint_of is_series)] |})
    end.
Proof.
  intros Hmiss. unfold get_popular. fold (popular_key is_series).
  rewrite (bind_run _ _ _ _ _ Hmiss).
  unfold bind, client_get, raise_for_status, json.
  destruct (up (Popular (endpoint_of is_series))) as [|status [b|]];
    [reflexivity| |]; cbn [fst snd]; destruct (is_success status); reflexivity.
Qed.

(** The popularity list is cached for ten minutes. After a fetch that
    missed the cache and returned a list at instant [t], the list is stored
    with expiry [t + 600]; a fetch before that instant returns the stored
    list without any request and leaves the world as it is, whatever upstream
    would reply; from that instant on the entry is not seen any more and a
    fetch asks upstream again. *)
Theorem popular_cache_ten_minutes is_series w items w1 :
  redis_get (popular_key is_series) w = (Ok None, w) ->
  get_popular up is_series w = (Ok items, w1) ->
  cache w1 !! popular_key is_series
  = Some {| ce_value := DItems items; ce_expires := Some (now w + 600) |}
  /\ log w1 = log w ++ [Popular (endpoint_of is_series)]
  /\ (forall up' w2,
        cache w2 !! popular_key is_series = cache w1 !! popular_key is_series ->
        now w2 < now w + 600 ->
        get_popular up' is_series w2 = (Ok items, w2))
  /\ (forall up' w2,
        cache w2 !! popular_key is_series = cache w1 !! popular_key is_series ->
        now w + 600 <= now w2 ->
        log (snd (get_popular up' is_series w2))
        = log w2 ++ [Popular (endpoint_of is_series)]).
Proof.
  intros Hmiss H. rewrite (get_popular_miss _ _ Hmiss) in H.
  destruct (up (Popular (endpoint_of is_series))) as [|status [b|]];
    [discriminate| |]; destruct (is_success status); try discriminate.
  injection H as <- <-. cbn [cache log now]. rewrite lookup_insert_eq.
  split; [reflexivity|]. split; [reflexivity|]. split.
  - intros up' w2 Hc Ht. eapply get_popular_hit; [exact Hc | exact Ht].
  - intros up' w2 Hc Ht.
    pose proof (get_popular_expired _ _ _ _ Hc Ht) as Hexp.
    unfold get_popular. fold (popular_key is_series).
    rewrite (bind_run _ _ _ _ _ Hexp).
    unfold bind, client_get, raise_for_status, json.
    destruct (up' (Popular (endpoint_of is_series))) as [|st [b'|]];
      [reflexivity| |]; cbn [fst snd]; destruct (is_success st); reflexivity.
Qed.

(** A fetch that fails stores nothing: when the taxonomy fetch or the
    popularity fetch raises, the cache is the one it started with. *)
Theorem failed_fetch_keeps_cache is_series w e w' :
  (fetch_genres up is_series w = (Raise e, w') -> cache w' = cache w)
  /\ (get_popular up is_series w = (Raise e, w') -> cache w' = cache w).
Proof.
  split; intros H.
  - unfold fetch_genres, bind, redis_get, client_get, raise_for_status, json,
      redis_set, ret, raise in H.
    destruct (match cache w !! _ with Some _ => _ | None => _ end) as [[m|i]|].
    + destruct (int_keys m); [discriminate | injection H as _ <-; reflexivity].
    + injection H as _ <-. reflexivity.
    + destruct (up (GenreList (endpoint_of is_series))) as [|status [b|]];
        cbn [fst snd] in H; try destruct (is_success status);
        try discriminate; injection H as _ <-; reflexivity.
  - unfold get_popular, bind, redis_get, client_get, raise_for_status, json,
      redis_set, ret, raise in H.
    destruct (match cache w !! _ with Some _ => _ | None => _ end) as [[m|i]|].
    + injection H as _ <-. reflexivity.
    + discriminate.
    + destruct (up (Popular (endpoint_of is_series))) as [|status [b|]];
        cbn [fst snd] in H; try destruct (is_success status);
        try discriminate; injection H as _ <-; reflexivity.
Qed.

End PopularCache.

(** The popularity fetch on the empty cache at instant 0. *)
Lemma popular_cache_ten_minutes_witness :
  exists items w1,
    get_popular Fx.up_popular false Fx.world0 = (Ok items, w1)
    /\ cache w1 !! popular_key false
       = Some {| ce_value := DItems items; ce_expires := Some (now Fx.world0 + 600) |}
    /\ forall up' w2,
         cache w2 !! popular_key false = cache w1 !! popular_key false ->
         now w2 < now Fx.world0 + 600 ->
         get_popular up' false w2 = (Ok items, w2).
Proof.
  eexists _, _. split; [vm_compute; reflexivity|].
  destruct (popular_cache_ten_minutes Fx.up_popular false Fx.world0 _ _
              eq_refl eq_refl) as (H1 & _ & H3 & _).
  split; [exact H1 | exact H3].
Defined.

(** The taxonomy fetch and the popularity fetch when upstream is down. *)
Lemma failed_fetch_keeps_cache_witness :
  cache (snd (fetch_genres Fx.up_down true Fx.world0)) = cache Fx.world0
  /\ cache (snd (get_popular Fx.up_down true Fx.world0)) = cache Fx.world0.
Proof.
  split.
  - apply (proj1 (failed_fetch_keeps_cache Fx.up_down true Fx.world0
                    RequestError _)). reflexivity.
  - apply (proj2 (failed_fetch_keeps_cache Fx.up_down true Fx.world0
                    RequestError _)). reflexivity.
Defined.

(** ** The calls of the mapper *)

Section ItemCalls.

Variable up : Upstream.

Lemma omap_length_le {A B} (f : A -> option B) (l : list A) :
  (length (omap f l) <= length l)%nat.
Proof.
  induction l as [|x r IH]; cbn; [lia|]. destruct (f x); cbn; lia.
Qed.


(** The cross-reference lookup never fails on a status: it raises on a
    network error and on a reply with status 200 whose body is not JSON, and
    returns in every other case; the ID of the reply is returned on status
    200 only. *)
Theorem get_imdb_id_outcome ep tmdb_id w :
  _get_imdb_id up ep tmdb_id w
  = (match up (Detail ep tmdb_id) with
     | NetErr => Raise RequestError
     | Resp status body =>
         if status =? 200 then
           match body with
           | Some b => Ok (b_imdb_id b)
           | None => Raise JSONDecodeError
           end
         else Ok None
     end,
     {| cache := cache w; now := now w; log := log w ++ [Detail ep tmdb_id] |}).
Proof.
  unfold _get_imdb_id, bind, client_get, json.
  destruct (up (Detail ep tmdb_id)) as [|status [b|]]; [reflexivity| |];
    cbn [fst snd]; destruct (status =? 200); reflexivity.
Qed.

(** The enrichment lookup decodes the body before it looks at the status:
    it raises on a network error and on any reply whose body is not JSON,
    whatever the status, and never on a status; it returns the payload on
    status 200 with [Response] equal to ["True"], and [None] otherwise. *)
Theorem fetch_omdb_data_outcome imdb_id w :
  _fetch_omdb_data up imdb_id w
  = (match up (Omdb imdb_id) with
     | NetErr => Raise RequestError
     | Resp _ None => Raise JSONDecodeError
     | Resp status (Some data) =>
         Ok (if (status =? 200) && bool_decide (b_Response data = Some "True")
             then Some data else None)
     end,
     {| cache := cache w; now := now w; log := log w ++ [Omdb imdb_id] |}).
Proof.
  unfold _fetch_omdb_data, bind, client_get, json.
  destruct (up (Omdb imdb_id)) as [|status [b|]]; [reflexivity| |reflexivity].
  cbn [fst snd]. unfold ret.
  destruct ((status =? 200) && bool_decide (b_Response b = Some "True"));
    reflexivity.
Qed.

End ItemCalls.


(** ** More on the record mapper *)

Section MapperEdges.

Variable up : Upstream.

(** The world after one call whose reply is only inspected. *)
Lemma call_world {A} r (k : Z * option Body -> M A) w res w' :
  (forall resp wa res' wb, k resp wa = (res', wb) -> wb = wa) ->
  bind (client_get up r) k w = (res, w') ->
  w' = {| cache := cache w; now := now w; log := log w ++ [r] |}.
Proof.
  intros Hk H. unfold bind, client_get in H.
  destruct (up r) as [|status body].
  - injection H as _ <-. reflexivity.
  - apply Hk in H. exact H.
Qed.

Lemma pure_tail_world {A} (resp : Z * option Body) (f : Body -> A) wa res wb :
  (raise_for_status resp ;; body <- json resp ;; ret (f body)) wa = (res, wb) ->
  wb = wa.
Proof.
  unfold bind, raise_for_status, json, ret, raise.
  destruct (is_success (fst resp)); [|intros [= _ <-]; reflexivity].
  destruct (snd resp); intros [= _ <-]; reflexivity.
Qed.

Lemma fetch_credits_world ep tmdb_id w res w' :
  _fetch_credits up ep tmdb_id w = (res, w') ->
  w' = {| cache := cache w; now := now w; log := log w ++ [Credits ep tmdb_id] |}.
Proof.
  apply call_world. intros resp wa res' wb Hk.
  eapply pure_tail_world, Hk.
Qed.

Lemma get_imdb_id_world ep tmdb_id w res w' :
  _get_imdb_id up ep tmdb_id w = (res, w') ->
  w' = {| cache := cache w; now := now w; log := log w ++ [Detail ep tmdb_id] |}.
Proof.
  apply call_world. intros resp wa res' wb. unfold bind, json, ret, raise.
  destruct (fst resp =? 200); [|intros [= _ <-]; reflexivity].
  destruct (snd resp); intros [= _ <-]; reflexivity.
Qed.

Lemma fetch_omdb_data_world imdb_id w res w' :
  _fetch_omdb_data up imdb_id w = (res, w') ->
  w' = {| cache := cache w; now := now w; log := log w ++ [Omdb imdb_id] |}.
Proof.
  apply call_world. intros resp wa res' wb. unfold bind, json, ret, raise.
  destruct (snd resp) as [b|]; [|intros [= _ <-]; reflexivity].
  destruct (_ && _); intros [= _ <-]; reflexivity.
Qed.

(** The genres of a record are taxonomy names of the genre IDs of the item:
    a name is in the record exactly when it is non-empty and the taxonomy
    gives it to one of the IDs of the item; IDs that the taxonomy does not
    hold are left out, so a record has at most as many genres as the item has
    IDs, and none with an empty taxonomy. *)
Theorem record_genres_from_taxonomy item ep genres params w r w' :
  map_to_movie up item ep genres params w = (Ok r, w') ->
  (forall g, g ∈ m_genres r <->
             g <> "" /\ exists i, i ∈ i_genre_ids item
                                  /\ Py.dict_get i genres = Some g)
  /\ (length (m_genres r) <= length (i_genre_ids item))%nat
  /\ (genres = [] -> m_genres r = []).
Proof.
  intros H.
  destruct (map_to_movie_inv _ _ _ _ _ _ _ _ H)
    as (_ & _ & _ & _ & _ & _ & _ & _ & _ & _ & _ & _ & Hg & _).
  rewrite Hg. split; [|split].
  - intros g. rewrite list_elem_of_omap. split.
    + intros (i & Hi & Hgi). apply given_Some in Hgi as [Hd Hne]. eauto.
    + intros (Hne & i & Hi & Hd). exists i. split; [exact Hi|].
      apply given_Some. auto.
  - apply omap_length_le.
  - intros ->. clear Hg H.
    induction (i_genre_ids item) as [|i l IH]; [reflexivity | exact IH].
Qed.



(** The mapper asks for the credits, then for the detail, then, only when
    the detail gave a non-empty cross-reference ID, for the enrichment of
    that ID; it makes no other request and does not touch the cache or the
    clock. *)
Theorem mapper_requests item ep genres params w r w' :
  map_to_movie up item ep genres params w = (Ok r, w') ->
  exists imdb_id w1 w2,
    _get_imdb_id up ep (i_id item) w1 = (Ok imdb_id, w2)
    /\ log w' = log w ++ Credits ep (i_id item) :: Detail ep (i_id item)
                         :: match given imdb_id with
                            | Some i => [Omdb i]
                            | None => []
                            end
    /\ cache w' = cache w /\ now w' = now w.
Proof.
  intros H.
  destruct (map_to_movie_inv _ _ _ _ _ _ _ _ H)
    as (year & actors & imdb_id & omdb & w1 & w2 & _ & Hc & Hi & He & _).
  exists imdb_id, w1, w2. split; [exact Hi|].
  rewrite (fetch_credits_world _ _ _ _ _ Hc) in Hi.
  rewrite (get_imdb_id_world _ _ _ _ _ Hi) in He.
  unfold enrichment in He. destruct (given imdb_id) as [i|].
  - rewrite (fetch_omdb_data_world _ _ _ _ He).
    cbn [log cache now]. rewrite <- !app_assoc. auto.
  - apply ret_Ok in He as [_ <-]. cbn [log cache now].
    rewrite <- !app_assoc. auto.
Qed.

End MapperEdges.

Section Ratings.

Context {K V : Type} `{EqDecision K}.

Lemma dict_get_set (k k' : K) (v : V) d :
  Py.dict_get k' (Py.dict_set k v d)
  = if decide (k = k') then Some v else Py.dict_get k' d.
Proof.
  induction d as [|[k0 v0] r IH]; cbn.
  - destruct (decide (k = k')); reflexivity.
  - destruct (decide (k0 = k)) as [->|Hne]; cbn.
    + destruct (decide (k = k')); reflexivity.
    + rewrite IH. destruct (decide (k0 = k')) as [->|]; [|reflexivity].
      destruct (decide (k = k')); [congruence | reflexivity].
Qed.

Lemma dict_get_fold (k : K) (l acc : list (K * V)) :
  k ∉ l.*1 ->
  Py.dict_get k (fold_left (fun d kv => Py.dict_set (fst kv) (snd kv) d) l acc)
  = Py.dict_get k acc.
Proof.
  revert acc. induction l as [|[k0 v0] r IH]; intros acc Hk; [reflexivity|].
  rewrite fmap_cons, not_elem_of_cons in Hk. destruct Hk as [Hne Hk].
  cbn in *. rewrite (IH _ Hk), dict_get_set.
  destruct (decide (k0 = k)); [congruence | reflexivity].
Qed.

(** In a dictionary built from pairs, a key holds the value of its last
    pair, and a key without pair is absent. *)
Lemma dict_get_last (k : K) (v : V) (pre post : list (K * V)) :
  k ∉ post.*1 ->
  Py.dict_get k (Py.dict_of_pairs (pre ++ (k, v) :: post)) = Some v.
Proof.
  intros Hk. unfold Py.dict_of_pairs. rewrite fold_left_app. cbn [fold_left].
  rewrite (dict_get_fold _ _ _ Hk). cbn [fst snd]. rewrite dict_get_set.
  destruct (decide (k = k)); [reflexivity | contradiction].
Qed.

Lemma dict_get_absent (k : K) (l : list (K * V)) :
  k ∉ l.*1 -> Py.dict_get k (Py.dict_of_pairs l) = None.
Proof. intros Hk. unfold Py.dict_of_pairs. now rewrite dict_get_fold. Qed.

End Ratings.

Section MergedRatings.

Variable up : Upstream.

(** The ratings of a merged record hold every source once: a source listed
    several times in the enrichment payload keeps its last value, and a
    source that the payload does not list is absent. *)
Theorem merged_ratings_last_value item ep genres params w r w' :
  map_to_movie up item ep genres params w = (Ok r, w') ->
  m_source r = Merged ->
  exists imdb_id o w2,
    enrichment up imdb_id w2 = (Ok (Some o), w')
    /\ NoDup (m_ratings r).*1
    /\ (forall source value pre post,
          b_Ratings o = pre ++ (source, value) :: post ->
          source ∉ post.*1 ->
          Py.dict_get source (m_ratings r) = Some value)
    /\ (forall source,
          source ∉ (b_Ratings o).*1 -> Py.dict_get source (m_ratings r) = None).
Proof.
  intros H Hs.
  destruct (merged_record_fields _ _ _ _ _ _ _ _ H Hs)
    as (imdb_id & o & w2 & year & He & _ & _ & _ & _ & Hr & _).
  exists imdb_id, o, w2. split; [exact He|]. rewrite Hr.
  split; [apply dict_of_pairs_NoDup|]. split.
  - intros source value pre post -> Hpost. apply dict_get_last, Hpost.
  - intros source Hk. apply dict_get_absent, Hk.
Qed.

End MergedRatings.

(** The movie hit of the sample search, mapped with the taxonomy that
    resolves its one genre ID. *)
Lemma record_genres_from_taxonomy_witness :
  exists r w',
    map_to_movie Fx.up_search (Fx.item 2 (Some "Bar") (Some "2020-02-02") [1; 99] None)
      EpMovie [(1, "Action")] (Fx.params None None None None) Fx.world0
    = (Ok r, w')
    /\ m_genres r = ["Action"]
    /\ (forall g, g ∈ m_genres r <->
                  g <> "" /\ exists i, i ∈ [1; 99]
                                       /\ Py.dict_get i [(1, "Action")] = Some g).
Proof.
  eexists _, _. split; [vm_compute; reflexivity|]. split; [reflexivity|].
  apply (record_genres_from_taxonomy Fx.up_search
           (Fx.item 2 (Some "Bar") (Some "2020-02-02") [1; 99] None)
           EpMovie [(1, "Action")] (Fx.params None None None None) Fx.world0
           _ _ eq_refl).
Defined.



(** The requests for the item of the mapper test, with and without a
    cross-reference ID. *)
Lemma mapper_requests_witness :
  exists r w',
    map_to_movie Fx.up_merged Fx.item101 EpMovie []
      (Fx.params None None None None) Fx.world0 = (Ok r, w')
    /\ log w' = [Credits EpMovie (Some 101); Detail EpMovie (Some 101);
                 Omdb "tt123"].
Proof.
  eexists _, _. split; [vm_compute; reflexivity|].
  destruct (mapper_requests Fx.up_merged Fx.item101 EpMovie []
              (Fx.params None None None None) Fx.world0 _ _ eq_refl)
    as (imdb_id & w1 & w2 & Hi & Hl & _).
  reflexivity.
Defined.

(** The sample payload lists the source [A] twice. *)
Lemma merged_ratings_last_value_witness :
  exists r w',
    map_to_movie Fx.up_year_range
      (Fx.item 2 (Some "Bar") (Some "2020-02-02") [] None) EpMovie []
      (Fx.params None None None None) Fx.world0 = (Ok r, w')
    /\ Py.dict_get "A" (m_ratings r) = Some "9/10"
    /\ Py.dict_get "C" (m_ratings r) = None.
Proof.
  eexists _, _. split; [vm_compute; reflexivity|].
  destruct (merged_ratings_last_value Fx.up_year_range
              (Fx.item 2 (Some "Bar") (Some "2020-02-02") [] None) EpMovie []
              (Fx.params None None None None) Fx.world0 _ _ eq_refl eq_refl)
    as (imdb_id & o & w2 & He & _ & Hlast & Habs).
  split; reflexivity.
Defined.

(** ** Resolution of a genre name *)

Section GenreResolution.

Variable lower : string -> string.

(** A genre name resolves to the ID of the first taxonomy entry whose name
    equals it after lower-casing, and to nothing exactly when no entry
    does. *)
Theorem genre_id_of_first_match (genres : list (Z * string)) (g : string) :
  match genre_id_of lower genres g with
  | Some i =>
      exists pre n post,
        genres = pre ++ (i, n) :: post
        /\ lower n = lower g
        /\ forall kv, kv ∈ pre -> lower (snd kv) <> lower g
  | None => forall kv, kv ∈ genres -> lower (snd kv) <> lower g
  end.
Proof.
  unfold genre_id_of. induction genres as [|[i n] rest IH]; cbn.
  - intros kv Hkv. inversion Hkv.
  - destruct (String.eqb_spec (lower n) (lower g)) as [Heq|Hne]; cbn.
    + exists [], n, rest. split; [reflexivity|]. split; [exact Heq|].
      intros kv Hkv. inversion Hkv.
    + destruct (List.find _ rest) as [[j m]|]; cbn in *.
      * destruct IH as (pre & n' & post & -> & Hn & Hpre).
        exists ((i, n) :: pre), n', post. split; [reflexivity|].
        split; [exact Hn|]. intros kv [->|Hkv]%elem_of_cons; [exact Hne|].
        apply Hpre, Hkv.
      * intros kv [->|Hkv]%elem_of_cons; [exact Hne | apply IH, Hkv].
Qed.

End GenreResolution.

(** ** The router without a title, and what a search returns *)

Section SearchResults.

Variable up : Upstream.
Variable lower : string -> string.

(** A query without title: with a genre, an actor name or a media type the
    router takes the filters-only branch, which discovers on the series path
    when the media type is series and on the movie path when it is movie or
    left out; with none of them it takes the popular fallback. *)
Theorem router_without_title params :
  Py.truthy (p_title params) = false ->
  (Py.truthy (p_genre params) = true \/ Py.truthy (p_actors params) = true
   \/ is_Some (p_type params) ->
     strategy params = FiltersOnly
     /\ search_tmdb up lower params
        = _search_by_filters_only up lower params
            (bool_decide (p_type params = Some Series))
     /\ discover_by_filters up lower (p_genre params) (p_actors params)
          (bool_decide (p_type params = Some Series))
        = match p_type params with
          | Some Series =>
              _discover_tv_by_filters up lower (p_genre params) (p_actors params)
          | _ =>
              _discover_movie_by_filters up lower (p_genre params)
                (p_actors params)
          end)
  /\ (Py.truthy (p_genre params) = false -> Py.truthy (p_actors params) = false ->
      p_type params = None ->
        strategy params = PopularFallback
        /\ search_tmdb up lower params = _get_popular_fallback up params).
Proof.
  intros Ht. split.
  - intros Hf.
    assert (Hs : strategy params = FiltersOnly).
    { unfold strategy. rewrite Ht.
      destruct Hf as [-> | [-> | Hty]].
      - reflexivity.
      - rewrite orb_true_r. reflexivity.
      - rewrite (bool_decide_eq_true_2 _ Hty), orb_true_r. reflexivity. }
    split; [exact Hs|]. split.
    + unfold search_tmdb. rewrite Hs. reflexivity.
    + destruct (p_type params) as [[]|]; reflexivity.
  - intros Hg Ha Hty.
    assert (Hs : strategy params = PopularFallback).
    { unfold strategy. rewrite Ht, Hg, Ha, Hty. reflexivity. }
    split; [exact Hs|]. unfold search_tmdb. rewrite Hs. reflexivity.
Qed.

Lemma strategy_no_filters params :
  strategy params = TitleOnly \/ strategy params = PopularFallback ->
  p_type params = None /\ Py.truthy (p_genre params) = false
  /\ Py.truthy (p_actors params) = false.
Proof.
  unfold strategy.
  destruct (Py.truthy (p_title params)), (Py.truthy (p_genre params)),
    (Py.truthy (p_actors params)), (p_type params) as [t|]; cbn;
    intros [H|H]; try discriminate H; auto.
Qed.

Lemma matches_no_filters (m : MovieResponse) params :
  p_type params = None -> Py.truthy (p_genre params) = false ->
  Py.truthy (p_actors params) = false -> matches lower m params = true.
Proof.
  intros Ht Hg Ha. unfold matches.
  rewrite Ht. apply given_None in Hg, Ha. rewrite Hg, Ha. reflexivity.
Qed.

Lemma matches_type (m : MovieResponse) params t :
  matches lower m params = true -> p_type params = Some t -> m_type m = t.
Proof.
  unfold matches. intros H Ht. rewrite Ht in H.
  destruct (bool_decide_reflect (m_type m = t)) as [Heq|Hne]; [exact Heq|].
  discriminate H.
Qed.

Lemma filters_only_Ok params is_series w rs w' :
  _search_by_filters_only up lower params is_series w = (Ok rs, w') ->
  exists candidates ep w1 mapped,
    discover_by_filters up lower (p_genre params) (p_actors params) is_series w
    = (Ok (candidates, ep), w1)
    /\ Forall2 (mapped_from up params) candidates mapped
    /\ rs = List.filter (fun m => matches lower m params) mapped
    /\ Forall (fun m => matches lower m params = true) rs.
Proof.
  unfold _search_by_filters_only. intros H.
  apply bind_Ok in H as ([candidates ep] & w1 & Hfound & H).
  apply bind_Ok in H as (genres & w2 & Hg & H).
  apply bind_Ok in H as (mapped & w3 & Hm & H).
  apply ret_Ok in H as [<- <-]. cbn [fst snd] in Hm.
  exists candidates, ep, w1, mapped. split; [exact Hfound|]. split; [|split].
  - eapply Forall2_impl; [eapply gather_run, Hm|].
    intros item r (wa & wb & Hr). exists ep, genres, wa, wb. exact Hr.
  - reflexivity.
  - apply Forall_forall. intros m Hin.
    apply list_elem_of_In, filter_In in Hin as [_ Hin]. exact Hin.
Qed.

(** Whatever branch the router takes, every record that a search returns
    passes the match filter of the query; so with a media type in the query
    every record returned has that media type. *)
Theorem search_results_pass_filter params w rs w' :
  search_tmdb up lower params w = (Ok rs, w') ->
  Forall (fun m => matches lower m params = true) rs
  /\ forall t, p_type params = Some t -> Forall (fun m => m_type m = t) rs.
Proof.
  intros H.
  assert (Hall : Forall (fun m => matches lower m params = true) rs).
  { unfold search_tmdb in H. destruct (strategy params) eqn:Es.
    - destruct (strategy_no_filters params (or_introl Es)) as (Ht & Hg & Ha).
      apply Forall_forall. intros m _. apply matches_no_filters; assumption.
    - apply title_with_filters_Ok in H as (c & ep & w1 & mapped & _ & _ & _ & Hp).
      exact Hp.
    - apply filters_only_Ok in H as (c & ep & w1 & mapped & _ & _ & _ & Hp).
      exact Hp.
    - destruct (strategy_no_filters params (or_intror Es)) as (Ht & Hg & Ha).
      apply Forall_forall. intros m _. apply matches_no_filters; assumption. }
  split; [exact Hall|]. intros t Ht.
  eapply Forall_impl; [exact Hall|]. intros m Hm. cbn beta in Hm.
  exact (matches_type m params t Hm Ht).
Qed.

End SearchResults.

(** The query of the filters-only test: a genre and the media type series. *)
Lemma router_without_title_witness :
  strategy (Fx.params None None (Some Series) (Some "Drama")) = FiltersOnly
  /\ strategy (Fx.params None None None None) = PopularFallback.
Proof.
  destruct (router_without_title Fx.up_nobody Py.ascii_lower
              (Fx.params None None (Some Series) (Some "Drama")) eq_refl)
    as [H1 _].
  destruct (router_without_title Fx.up_nobody Py.ascii_lower
              (Fx.params None None None None) eq_refl) as [_ H2].
  split.
  - apply H1. left. reflexivity.
  - apply H2; reflexivity.
Defined.

(** A search by title and media type movie on the sample upstream. *)
Lemma search_results_pass_filter_witness :
  exists rs w',
    search_tmdb Fx.up_search Py.ascii_lower
      (Fx.params (Some "Bar") None (Some Movie) None) Fx.world0 = (Ok rs, w')
    /\ length rs = 1%nat
    /\ Forall (fun m => m_type m = Movie) rs.
Proof.
  eexists _, _. split; [vm_compute; reflexivity|]. split; [reflexivity|].
  eapply (proj2 (search_results_pass_filter Fx.up_search Py.ascii_lower
                   (Fx.params (Some "Bar") None (Some Movie) None) Fx.world0
                   _ _ eq_refl)).
  reflexivity.
Defined.

(** ** What a search stores and what it requests *)

Section Frame.

Variable up : Upstream.
Variable keys : list string.

Lemma touches_only_ret {A} (a : A) : touches_only keys (ret a).
Proof. intros w res w' [= <- <-]. auto. Qed.

Lemma touches_only_raise {A} e : touches_only keys (@raise A e).
Proof. intros w res w' [= <- <-]. auto. Qed.

Lemma touches_only_bind {A B} (m : M A) (k : A -> M B) :
  touches_only keys m -> (forall a, touches_only keys (k a)) ->
  touches_only keys (bind m k).
Proof.
  intros Hm Hk w res w' H. unfold bind in H.
  destruct (m w) as [[a|e] w1] eqn:Em.
  - destruct (Hm _ _ _ Em) as [Hn Hc]. destruct (Hk a _ _ _ H) as [Hn' Hc'].
    split; [congruence|]. intros k0 Hk0. rewrite Hc', Hc by exact Hk0. reflexivity.
  - injection H as <- <-. eapply Hm, Em.
Qed.

Lemma touches_only_client_get r : touches_only keys (client_get up r).
Proof.
  intros w res w' H. unfold client_get in H.
  destruct (up r); injection H as <- <-; auto.
Qed.

Lemma touches_only_redis_get key : touches_only keys (redis_get key).
Proof. intros w res w' [= <- <-]. auto. Qed.

Lemma touches_only_redis_set key doc ex :
  key ∈ keys -> touches_only keys (redis_set key doc ex).
Proof.
  intros Hk w res w' [= <- <-]. cbn [now cache]. split; [reflexivity|].
  intros k0 Hk0. apply lookup_insert_ne. intros ->. contradiction.
Qed.

Lemma touches_only_raise_for_status resp :
  touches_only keys (raise_for_status resp).
Proof.
  unfold raise_for_status.
  destruct (is_success _); [apply touches_only_ret | apply touches_only_raise].
Qed.

Lemma touches_only_json resp : touches_only keys (json resp).
Proof.
  unfold json.
  destruct (snd resp); [apply touches_only_ret | apply touches_only_raise].
Qed.

Lemma touches_only_int_or_raise s : touches_only keys (int_or_raise s).
Proof.
  unfold int_or_raise.
  destruct (Py.int s); [apply touches_only_ret | apply touches_only_raise].
Qed.

Lemma touches_only_gather {A B} (f : A -> M B) l :
  (forall x, touches_only keys (f x)) -> touches_only keys (gather f l).
Proof.
  intros Hf. induction l as [|x r IH]; cbn [gather].
  - apply touches_only_ret.
  - apply touches_only_bind; [apply Hf|]. intros y.
    apply touches_only_bind; [apply IH|]. intros ys. apply touches_only_ret.
Qed.

End Frame.

(** Decomposes a goal [touches_only keys m] along the structure of [m]. *)
Ltac frame :=
  repeat
    (first
       [ apply touches_only_ret
       | apply touches_only_raise
       | apply touches_only_redis_get
       | apply touches_only_raise_for_status
       | apply touches_only_json
       | apply touches_only_int_or_raise
       | apply touches_only_client_get
       | apply touches_only_gather; intros ?
       | apply touches_only_bind; [|intros ?]
       | match goal with
         | |- touches_only _ (match ?x with _ => _ end) => destruct x
         | |- touches_only _ (if ?b then _ else _) => destruct b
         end ]).

Section FramedProgram.

Variable up : Upstream.
Variable lower : string -> string.

Lemma key_in_cache_keys prefix is_series :
  prefix = "genres:" \/ prefix = "popular:" ->
  prefix +:+ ep_str (endpoint_of is_series) ∈ cache_keys.
Proof.
  intros [-> | ->]; destruct is_series; apply list_elem_of_In; cbn; tauto.
Qed.

Lemma touches_only_fetch_genres is_series :
  touches_only cache_keys (fetch_genres up is_series).
Proof.
  unfold fetch_genres. frame.
  apply touches_only_redis_set, key_in_cache_keys. auto.
Qed.

Lemma touches_only_get_popular is_series :
  touches_only cache_keys (get_popular up is_series).
Proof.
  unfold get_popular. frame.
  apply touches_only_redis_set, key_in_cache_keys. auto.
Qed.

Lemma touches_only_map_to_movie item ep genres params :
  touches_only [] (map_to_movie up item ep genres params).
Proof.
  unfold map_to_movie, catalog_year, _fetch_credits, _get_imdb_id, enrichment,
    _fetch_omdb_data, merged_year.
  frame.
Qed.

Lemma touches_only_more {A} (m : M A) keys :
  touches_only [] m -> touches_only keys m.
Proof.
  intros Hm w res w' H. destruct (Hm _ _ _ H) as [Hn Hc].
  split; [exact Hn|]. intros k _. apply Hc. apply not_elem_of_nil.
Qed.

Lemma touches_only_discover genre actors is_series :
  touches_only cache_keys (discover_by_filters up lower genre actors is_series).
Proof.
  unfold discover_by_filters, _discover_tv_by_filters, _discover_movie_by_filters,
    with_genres_of, search_person.
  destruct is_series; frame;
    first [ apply touches_only_fetch_genres
          | apply touches_only_redis_set, key_in_cache_keys; auto ].
Qed.

Lemma touches_only_get_search_results title is_series :
  touches_only cache_keys (get_search_results up title is_series).
Proof. unfold get_search_results. frame. Qed.

Lemma touches_only_mapped {A} (f : A -> RawItem) (ep : A -> Endpoint)
    (g : A -> list (Z * string)) params l :
  touches_only cache_keys
    (gather (fun x => map_to_movie up (f x) (ep x) (g x) params) l).
Proof.
  apply touches_only_gather. intros x.
  apply touches_only_more, touches_only_map_to_movie.
Qed.

Lemma touches_only_title_only_loop params endpoints movies :
  touches_only cache_keys (title_only_loop up params endpoints movies).
Proof.
  revert movies. induction endpoints as [|ep rest IH]; intros movies;
    cbn [title_only_loop].
  - apply touches_only_ret.
  - apply touches_only_bind; [apply touches_only_get_search_results|].
    intros found.
    apply touches_only_bind; [apply touches_only_fetch_genres|]. intros genres.
    apply touches_only_bind; [|intros mapped; apply IH].
    apply (touches_only_mapped (fun i => i) (fun _ => snd found) (fun _ => genres)).
Qed.

Lemma touches_only_search_tmdb params :
  touches_only cache_keys (search_tmdb up lower params).
Proof.
  unfold search_tmdb. destruct (strategy params).
  - apply touches_only_title_only_loop.
  - unfold _search_by_title_with_filters.
    apply touches_only_bind.
    + destruct (_ && _);
        [apply touches_only_discover | apply touches_only_get_search_results].
    + intros found. apply touches_only_bind; [apply touches_only_fetch_genres|].
      intros g. apply touches_only_bind; [|intros m; apply touches_only_ret].
      apply (touches_only_mapped (fun i => i) (fun _ => snd found) (fun _ => g)).
  - unfold _search_by_filters_only.
    apply touches_only_bind; [apply touches_only_discover|].
    intros found. apply touches_only_bind; [apply touches_only_fetch_genres|].
    intros g. apply touches_only_bind; [|intros m; apply touches_only_ret].
    apply (touches_only_mapped (fun i => i) (fun _ => snd found) (fun _ => g)).
  - unfold _get_popular_fallback.
    apply touches_only_bind; [apply touches_only_get_popular|]. intros mp.
    apply touches_only_bind; [apply touches_only_get_popular|]. intros tp.
    apply touches_only_bind; [apply touches_only_fetch_genres|]. intros gm.
    apply touches_only_bind; [apply touches_only_fetch_genres|]. intros gt.
    apply touches_only_bind; [|intros m; apply touches_only_ret].
    apply (touches_only_mapped fst snd).
Qed.

(** A search leaves the clock alone and stores under the four keys
    [genres:movie], [genres:tv], [popular:movie] and [popular:tv] only:
    every other entry of the cache is, after the search, what it was before,
    whether the search returns or raises. The mapper itself stores
    nothing. *)
Theorem search_stores_under_four_keys params w res w' :
  search_tmdb up lower params w = (res, w') ->
  now w' = now w
  /\ (forall k, k ∉ cache_keys -> cache w' !! k = cache w !! k)
  /\ (forall item ep genres wa res' wb,
        map_to_movie up item ep genres params wa = (res', wb) ->
        cache wb = cache wa).
Proof.
  intros H. destruct (touches_only_search_tmdb params _ _ _ H) as [Hn Hc].
  split; [exact Hn|]. split; [exact Hc|].
  intros item ep genres wa res' wb Hm.
  destruct (touches_only_map_to_movie _ _ _ _ _ _ _ Hm) as [_ Hk].
  apply map_eq. intros k. apply Hk, not_elem_of_nil.
Qed.

End FramedProgram.

(** A search by title on the sample upstream, started with a foreign entry
    in the cache. *)
Lemma search_stores_under_four_keys_witness :
  cache (snd (search_tmdb Fx.up_search Py.ascii_lower
                (Fx.params (Some "Bar") None None None) Fx.world_foreign))
    !! "session:1"
  = cache Fx.world_foreign !! "session:1".
Proof.
  destruct (search_tmdb Fx.up_search Py.ascii_lower
              (Fx.params (Some "Bar") None None None) Fx.world_foreign)
    as [res w'] eqn:E.
  destruct (search_stores_under_four_keys Fx.up_search Py.ascii_lower
              _ _ _ _ E) as (_ & Hc & _).
  apply Hc. intros Hin.
  repeat (apply elem_of_cons in Hin as [Hin|Hin]; [discriminate Hin|]).
  inversion Hin.
Defined.

Section RequestKinds.

Variable up : Upstream.
Variable kind : Request -> bool.

Lemma issues_ret {A} (a : A) : issues kind (ret a).
Proof.
  intros w res w' [= <- <-]. exists []. rewrite app_nil_r. split; constructor.
Qed.

Lemma issues_raise {A} e : issues kind (@raise A e).
Proof.
  intros w res w' [= <- <-]. exists []. rewrite app_nil_r. split; constructor.
Qed.

Lemma issues_bind {A B} (m : M A) (k : A -> M B) :
  issues kind m -> (forall a, issues kind (k a)) -> issues kind (bind m k).
Proof.
  intros Hm Hk w res w' H. unfold bind in H.
  destruct (m w) as [[a|e] w1] eqn:Em.
  - destruct (Hm _ _ _ Em) as (i1 & Hl1 & Hp1).
    destruct (Hk a _ _ _ H) as (i2 & Hl2 & Hp2).
    exists (i1 ++ i2). rewrite Hl2, Hl1, app_assoc. split; [reflexivity|].
    apply Forall_app. auto.
  - injection H as <- <-. eapply Hm, Em.
Qed.

Lemma issues_client_get r : kind r = true -> issues kind (client_get up r).
Proof.
  intros Hk w res w' H. unfold client_get in H. exists [r].
  destruct (up r); injection H as <- <-; (split; [reflexivity|]);
    constructor; auto.
Qed.

Lemma issues_redis_get key : issues kind (redis_get key).
Proof.
  intros w res w' [= <- <-]. exists []. rewrite app_nil_r. split; constructor.
Qed.

Lemma issues_redis_set key doc ex : issues kind (redis_set key doc ex).
Proof.
  intros w res w' [= <- <-]. exists []. cbn [log]. rewrite app_nil_r.
  split; constructor.
Qed.

Lemma issues_raise_for_status resp : issues kind (raise_for_status resp).
Proof.
  unfold raise_for_status.
  destruct (is_success _); [apply issues_ret | apply issues_raise].
Qed.

Lemma issues_json resp : issues kind (json resp).
Proof. unfold json. destruct (snd resp); [apply issues_ret | apply issues_raise]. Qed.

Lemma issues_int_or_raise s : issues kind (int_or_raise s).
Proof.
  unfold int_or_raise. destruct (Py.int s); [apply issues_ret | apply issues_raise].
Qed.

Lemma issues_gather {A B} (f : A -> M B) l :
  (forall x, issues kind (f x)) -> issues kind (gather f l).
Proof.
  intros Hf. induction l as [|x r IH]; cbn [gather].
  - apply issues_ret.
  - apply issues_bind; [apply Hf|]. intros y.
    apply issues_bind; [apply IH|]. intros ys. apply issues_ret.
Qed.

End RequestKinds.

(** Decomposes a goal [issues kind m] along the structure of [m]. *)
Ltac kinds :=
  repeat
    (first
       [ apply issues_ret
       | apply issues_raise
       | apply issues_redis_get
       | apply issues_redis_set
       | apply issues_raise_for_status
       | apply issues_json
       | apply issues_int_or_raise
       | apply issues_client_get; solve [reflexivity | auto]
       | apply issues_gather; intros ?
       | apply issues_bind; [|intros ?]
       | match goal with
         | |- issues _ (match ?x with _ => _ end) => destruct x
         | |- issues _ (if ?b then _ else _) => destruct b
         end ]).

Section RequestsOfSearch.

Variable up : Upstream.
Variable lower : string -> string.

Lemma issues_fetch_genres kind is_series :
  (forall ep, kind (GenreList ep) = true) ->
  issues kind (fetch_genres up is_series).
Proof. intros Hk. unfold fetch_genres. kinds. Qed.

Lemma issues_map_to_movie kind item ep genres params :
  (forall r, item_call r = true -> kind r = true) ->
  issues kind (map_to_movie up item ep genres params).
Proof.
  intros Hk.
  assert (forall e i, kind (Credits e i) = true) by (intros; apply Hk; reflexivity).
  assert (forall e i, kind (Detail e i) = true) by (intros; apply Hk; reflexivity).
  assert (forall i, kind (Omdb i) = true) by (intros; apply Hk; reflexivity).
  unfold map_to_movie, catalog_year, _fetch_credits, _get_imdb_id, enrichment,
    _fetch_omdb_data, merged_year.
  kinds.
Qed.

Lemma issues_discover kind genre actors is_series :
  (forall r, filter_call r = true -> kind r = true) ->
  issues kind (discover_by_filters up lower genre actors is_series).
Proof.
  intros Hk.
  assert (forall e, kind (GenreList e) = true) by (intros; apply Hk; reflexivity).
  assert (forall n, kind (SearchPerson n) = true) by (intros; apply Hk; reflexivity).
  assert (forall e g c, kind (Discover e g c) = true)
    by (intros; apply Hk; reflexivity).
  assert (forall i, kind (TvCredits i) = true) by (intros; apply Hk; reflexivity).
  unfold discover_by_filters, _discover_tv_by_filters, _discover_movie_by_filters,
    with_genres_of, search_person.
  destruct is_series; kinds; apply issues_fetch_genres; assumption.
Qed.

Lemma issues_get_search_results kind title is_series :
  (forall e t, kind (Search e t) = true) ->
  issues kind (get_search_results up title is_series).
Proof. intros Hk. unfold get_search_results. kinds. Qed.

Lemma issues_get_popular kind is_series :
  (forall e, kind (Popular e) = true) ->
  issues kind (get_popular up is_series).
Proof. intros Hk. unfold get_popular. kinds. Qed.

Lemma issues_title_only_loop params endpoints movies :
  issues title_call (title_only_loop up params endpoints movies).
Proof.
  revert movies. induction endpoints as [|ep rest IH]; intros movies;
    cbn [title_only_loop].
  - apply issues_ret.
  - apply issues_bind; [apply issues_get_search_results; reflexivity|].
    intros found.
    apply issues_bind; [apply issues_fetch_genres; reflexivity|]. intros genres.
    apply issues_bind; [|intros mapped; apply IH].
    apply issues_gather. intros item. apply issues_map_to_movie.
    intros []; cbn; auto.
Qed.

(** The requests of a search, by branch, whether it returns or raises. A
    title-only search makes title searches, taxonomy fetches and the calls
    of the mapper, and never a discovery, a person search or a popularity
    fetch. A filters-only search makes taxonomy fetches, person searches,
    discoveries, credit lists of a person and the calls of the mapper, and
    never a title search. The popular fallback makes popularity fetches,
    taxonomy fetches and the calls of the mapper only. A search by title with
    filters never fetches a popularity list. *)
Theorem search_requests_by_branch params :
  issues (match strategy params with
          | TitleOnly => title_call
          | TitleWithFilters => title_filter_call
          | FiltersOnly => filter_call
          | PopularFallback => popular_call
          end) (search_tmdb up lower params).
Proof.
  unfold search_tmdb. destruct (strategy params).
  - apply issues_title_only_loop.
  - unfold _search_by_title_with_filters.
    apply issues_bind.
    + destruct (_ && _).
      * apply issues_discover. intros []; cbn; auto.
      * apply issues_get_search_results. reflexivity.
    + intros found. apply issues_bind; [apply issues_fetch_genres; reflexivity|].
      intros g. apply issues_bind; [|intros m; apply issues_ret].
      apply issues_gather. intros item. apply issues_map_to_movie.
      intros []; cbn; auto.
  - unfold _search_by_filters_only.
    apply issues_bind; [apply issues_discover; auto|].
    intros found. apply issues_bind; [apply issues_fetch_genres; reflexivity|].
    intros g. apply issues_bind; [|intros m; apply issues_ret].
    apply issues_gather. intros item. apply issues_map_to_movie.
    intros []; cbn; auto.
  - unfold _get_popular_fallback.
    apply issues_bind; [apply issues_get_popular; reflexivity|]. intros mp.
    apply issues_bind; [apply issues_get_popular; reflexivity|]. intros tp.
    apply issues_bind; [apply issues_fetch_genres; reflexivity|]. intros gm.
    apply issues_bind; [apply issues_fetch_genres; reflexivity|]. intros gt.
    apply issues_bind; [|intros m; apply issues_ret].
    apply issues_gather. intros item. apply issues_map_to_movie.
    intros []; cbn; auto.
Qed.

(** Movie discovery with a genre name that resolves and an actor name for
    which a person is found makes one discovery call, with the genre ID as
    text, zero included, and the ID of the first person found, and returns
    the results of that call. *)
Theorem movie_discovery_with_both_filters g a genres w w1 gid status pb person
    rest status' found :
  g <> "" -> a <> "" ->
  fetch_genres up false w = (Ok genres, w1) ->
  genre_id_of lower genres g = Some gid ->
  up (SearchPerson a) = Resp status (Some pb) ->
  is_success status = true ->
  b_results pb = person :: rest ->
  up (Discover EpMovie (Some (Py.str gid)) (Some (Py.str_opt (i_id person))))
  = Resp status' (Some found) ->
  is_success status' = true ->
  _discover_movie_by_filters up lower (Some g) (Some a) w
  = (Ok (b_results found, EpMovie),
     {| cache := cache w1; now := now w1;
        log := log w1 ++ [SearchPerson a;
                          Discover EpMovie (Some (Py.str gid))
                            (Some (Py.str_opt (i_id person)))] |}).
Proof.
  intros Hg Ha Hf Hid Hp Hs Hr Hd Hs'.
  unfold _discover_movie_by_filters, with_genres_of.
  rewrite (given_nonempty _ Hg), (given_nonempty _ Ha).
  rewrite (bind_run _ _ _ _ _ (bind_run _ _ _ _ _ Hf)). rewrite Hid.
  cbn [fmap option_fmap option_map].
  assert (Hgiven : given (Some (Py.str gid)) = Some (Py.str gid)).
  { unfold given. cbn [Py.truthy]. rewrite str_nonempty. reflexivity. }
  unfold ret at 1. rewrite Hgiven.
  unfold search_person, bind, client_get, raise_for_status, json, ret.
  rewrite Hp. cbn [fst snd]. rewrite Hs, Hr. cbn [head fmap option_fmap option_map log cache now].
  rewrite Hd. cbn [fst snd]. rewrite Hs'. rewrite <- app_assoc. reflexivity.
Qed.

End RequestsOfSearch.

(** The filters-only test query: every request is one of a filters-only
    search. *)
Lemma search_requests_by_branch_witness :
  Forall (fun r => filter_call r = true)
    (log (snd (search_tmdb Fx.up_nobody Py.ascii_lower
                 (Fx.params None None (Some Series) (Some "Drama"))
                 Fx.world0))).
Proof.
  destruct (search_tmdb Fx.up_nobody Py.ascii_lower
              (Fx.params None None (Some Series) (Some "Drama")) Fx.world0)
    as [res w'] eqn:E.
  destruct (search_requests_by_branch Fx.up_nobody Py.ascii_lower
              (Fx.params None None (Some Series) (Some "Drama")) _ _ _ E)
    as (issued & Hl & Hk).
  cbn [snd]. rewrite Hl. exact Hk.
Defined.

(** Discovery of movies of genre [Drama], which has the ID [0], with an
    actor: the person [42] is the first one found. *)
Lemma movie_discovery_with_both_filters_witness :
  fst (_discover_movie_by_filters Fx.up_discover Py.ascii_lower (Some "drama")
         (Some "Someone") Fx.world0)
  = Ok ([Fx.item 8 (Some "Film") None [0] None], EpMovie).
Proof.
  rewrite (movie_discovery_with_both_filters Fx.up_discover Py.ascii_lower
             "drama" "Someone" [(0, "Drama"); (35, "Comedy")] Fx.world0
             (snd (fetch_genres Fx.up_discover false Fx.world0)) 0 200
             (Fx.results [Fx.item 42 None None [] None; Fx.item 43 None None [] None])
             (Fx.item 42 None None [] None) [Fx.item 43 None None [] None] 200
             (Fx.results [Fx.item 8 (Some "Film") None [0] None]));
    [reflexivity | discriminate | discriminate | vm_compute; reflexivity
     | reflexivity ..].
Defined.

(** ** One failing item fails the request *)

Section FailingItem.

Variable up : Upstream.
Variable lower : string -> string.



End FailingItem.

